(** * A room-based chat relay: the Socket.IO server of [backend/server.js]

    The development embeds the five event handlers of the server
    ([joinRoom], [chat-message], [typing], [stopTyping], [disconnect]),
    the two Mongoose collections they use ([User], [Message]) and the
    part of the browser client that decides when [stopTyping] is sent.

    Handlers are written in a small monad that threads the shared state
    (the two collections and the Socket.IO room table), may throw, and
    records every externally visible effect in the order the source
    performs it.  The collections hold strings as the store returns them
    (after the UTF-8 round trip of the driver), and a connection enters
    the room named after its id when it opens and leaves every room when
    it closes. *)

From Stdlib Require Import ZArith NArith String Ascii.
From Stdlib Require Import Sorting.Sorted Sorting.Permutation.
From stdpp Require Import base decidable option list gmap.

Local Open Scope Z_scope.

(* ================================================================== *)
(** ** JavaScript strings *)
(* ================================================================== *)

Module Js.

(** A JavaScript string is a sequence of UTF-16 code units. *)
Definition jsstring := list N.

(** An ASCII literal of the source. *)
Definition lit (s : string) : jsstring :=
  List.map N_of_ascii (list_ascii_of_string s).

(** [WhiteSpace] and [LineTerminator] of ECMA-262, the code units
    [String.prototype.trim] strips. *)
Definition is_whitespace (c : N) : bool :=
  ((c =? 9) || (c =? 10) || (c =? 11) || (c =? 12) || (c =? 13)
   || (c =? 32) || (c =? 160) || (c =? 5760)
   || ((8192 <=? c) && (c <=? 8202))
   || (c =? 8232) || (c =? 8233) || (c =? 8239) || (c =? 8287)
   || (c =? 12288) || (c =? 65279))%N.

Fixpoint trimStart (s : jsstring) : jsstring :=
  match s with
  | [] => []
  | c :: r => if is_whitespace c then trimStart r else s
  end.

Fixpoint trimEnd (s : jsstring) : jsstring :=
  match s with
  | [] => []
  | c :: r =>
      match trimEnd r with
      | [] => if is_whitespace c then [] else [c]
      | r' => c :: r'
      end
  end.

(** [s.trim()] *)
Definition trim (s : jsstring) : jsstring := trimEnd (trimStart s).

Definition is_high_surrogate (c : N) : bool := ((55296 <=? c) && (c <=? 56319))%N.
Definition is_low_surrogate (c : N) : bool := ((56320 <=? c) && (c <=? 57343))%N.

(** U+FFFD *)
Definition REPLACEMENT : N := 65533%N.

(** The code unit at one place of [s.toWellFormed()]: a surrogate that
    is not half of a pair becomes U+FFFD.  [after_high] tells whether
    the unit before is a high surrogate, [rest] is what follows. *)
Definition well_formed_unit (after_high : bool) (c : N) (rest : jsstring) : N :=
  if is_high_surrogate c then
    match rest with
    | d :: _ => if is_low_surrogate d then c else REPLACEMENT
    | [] => REPLACEMENT
    end
  else if is_low_surrogate c then (if after_high then c else REPLACEMENT)
  else c.

Fixpoint well_formed_from (after_high : bool) (s : jsstring) : jsstring :=
  match s with
  | [] => []
  | c :: r => well_formed_unit after_high c r :: well_formed_from (is_high_surrogate c) r
  end.

(** [s.toWellFormed()]: what is left of [s] after it was written as
    UTF-8 and read back. *)
Definition toWellFormed (s : jsstring) : jsstring := well_formed_from false s.

(** Truthiness of a string: [!s] is [negb (truthy s)]. *)
Definition truthy (s : jsstring) : bool :=
  match s with [] => false | _ => true end.

(** A payload field that may be absent ([undefined] or [null]). *)
Definition truthy_opt (o : option jsstring) : bool :=
  match o with Some s => truthy s | None => false end.

(** [o || ''] *)
Definition or_empty (o : option jsstring) : jsstring :=
  match o with Some s => if truthy s then s else [] | None => [] end.

(** A string with no character, or only whitespace. *)
Definition blank (s : jsstring) : Prop := Forall (fun c => is_whitespace c = true) s.

Definition eqb (a b : jsstring) : bool := bool_decide (a = b).

End Js.

Export Js.

(* ================================================================== *)
(** ** Data model *)
(* ================================================================== *)

(** A document of the [User] collection ([models/User.js]). *)
Record UserDoc := mkUser {
  u_socketId : jsstring;
  u_username : jsstring;
  u_room : jsstring;
  u_joinedAt : Z
}.

(** A document of the [Message] collection; [timestamps: true] adds
    [createdAt]. *)
Record MessageDoc := mkMessage {
  m_username : jsstring;
  m_room : jsstring;
  m_text : jsstring;
  m_createdAt : Z
}.

(** The object [{ username, text, createdAt }] sent with a ['message']
    event. *)
Record Line := mkLine {
  l_username : jsstring;
  l_text : jsstring;
  l_createdAt : Z
}.

(** Server-to-client events with their payloads. *)
Inductive server_event :=
| MessageEv (m : Line)
| MessageHistoryEv (history : list MessageDoc)
| RoomUsersEv (users : list jsstring)
| TypingEv (username : jsstring)
| StopTypingEv (username : jsstring).

(** Who an emission is addressed to. *)
Inductive target :=
| ToSocket (sid : jsstring)                 (* socket.emit *)
| ToRoom (room : jsstring)                  (* io.to(room).emit *)
| ToRoomExcept (room sid : jsstring).       (* socket.broadcast.to(room).emit *)

(** The externally visible effects of a handler, in program order. *)
Inductive effect :=
| SessionCreated (u : UserDoc)         (* [User.create] inserted [u] *)
| SessionDeleted (u : UserDoc)         (* [User.findOneAndDelete] removed [u] *)
| MessageSaved (m : MessageDoc)        (* [Message.create] resolved with [m] *)
| GroupJoined (sid room : jsstring)    (* [socket.join(room)] *)
| Emitted (t : target) (e : server_event).

(** Shared state: the two collections in natural (insertion) order and
    the adapter's table of rooms. *)
Record world := mkWorld {
  users : list UserDoc;
  messages : list MessageDoc;
  rooms : gmap jsstring (gset jsstring)
}.

Definition empty_world : world := mkWorld [] [] ∅.

(** What the environment decides while one event is handled: the clock
    reading, and which store calls fail on their own (store down). *)
Record env := mkEnv {
  now : Z;
  fault_User_create : bool;
  fault_User_find : bool;
  fault_User_findOne : bool;
  fault_User_findOneAndDelete : bool;
  fault_Message_create : bool;
  fault_Message_find : bool
}.

(** An environment in which the store answers every call. *)
Definition calm (t : Z) : env := mkEnv t false false false false false false.

(* ================================================================== *)
(** ** The handler monad *)
(* ================================================================== *)

Inductive error := ValidationError | DuplicateKeyError | StoreError.

Inductive outcome (A : Type) :=
| Done (a : A)
| Threw (e : error).
Arguments Done {A} a.
Arguments Threw {A} e.

Record run (A : Type) := mkRun {
  res : outcome A;
  final : world;
  out : list effect
}.
Arguments mkRun {A} res final out.
Arguments res {A} r.
Arguments final {A} r.
Arguments out {A} r.

Definition M (A : Type) : Type := world -> run A.

Definition ret {A} (a : A) : M A := fun w => mkRun (Done a) w [].

Definition bind {A B} (m : M A) (k : A -> M B) : M B :=
  fun w =>
    let r := m w in
    match res r with
    | Done a =>
        let r' := k a (final r) in
        mkRun (res r') (final r') (out r ++ out r')
    | Threw e => mkRun (Threw e) (final r) (out r)
    end.


(** [try { body } catch (err) { handler }] *)
Definition try_catch (body : M unit) (handler : error -> M unit) : M unit :=
  fun w =>
    let r := body w in
    match res r with
    | Done _ => r
    | Threw e =>
        let r' := handler e (final r) in
        mkRun (res r') (final r') (out r ++ out r')
    end.

Definition emit (t : target) (e : server_event) : M unit :=
  fun w => mkRun (Done tt) w [Emitted t e].

Declare Scope handler_scope.
Delimit Scope handler_scope with handler.
Notation "x <- m ;; k" := (bind m (fun x => k))
  (at level 100, m at next level, right associativity) : handler_scope.
Notation "m ;; k" := (bind m (fun _ => k))
  (at level 100, right associativity) : handler_scope.
Local Open Scope handler_scope.

(* ================================================================== *)
(** ** The two collections (Mongoose over MongoDB) *)
(* ================================================================== *)

Definition with_users (w : world) (us : list UserDoc) : world :=
  mkWorld us (messages w) (rooms w).

Definition with_messages (w : world) (ms : list MessageDoc) : world :=
  mkWorld (users w) ms (rooms w).

Definition with_rooms (w : world) (rs : gmap jsstring (gset jsstring)) : world :=
  mkWorld (users w) (messages w) rs.

(** What the store keeps of a string: the driver writes strings as
    UTF-8, so a lone surrogate is stored, and read back, as U+FFFD.  The
    value of a query goes through the same encoding. *)
Definition stored (s : jsstring) : jsstring := toWellFormed s.

(** The stored form of a message document. *)
Definition stored_message (m : MessageDoc) : MessageDoc :=
  mkMessage (stored (m_username m)) (stored (m_room m)) (stored (m_text m))
            (m_createdAt m).

(** The filters of the queries.  Socket ids are drawn by Socket.IO from
    an ASCII alphabet, which the encoding leaves as it is. *)
Definition has_socket (sid : jsstring) (u : UserDoc) : bool := eqb (u_socketId u) sid.
Definition user_in_room (room : jsstring) (u : UserDoc) : bool :=
  eqb (u_room u) (stored room).
Definition message_in_room (room : jsstring) (m : MessageDoc) : bool :=
  eqb (m_room m) (stored room).

(** [User.create({ socketId, username, room })].  The schema trims
    [username], requires the three fields (an empty string fails
    [required]) and declares [socketId] unique; [joinedAt] defaults to
    the clock.  The document inserted holds the stored form of the
    strings. *)
Definition User_create (e : env) (sid username room : jsstring) : M unit :=
  fun w =>
    let doc := mkUser sid (trim username) room (now e) in
    if negb (truthy (u_username doc)) || negb (truthy room) || negb (truthy sid)
    then mkRun (Threw ValidationError) w []
    else if fault_User_create e then mkRun (Threw StoreError) w []
    else if existsb (has_socket sid) (users w)
    then mkRun (Threw DuplicateKeyError) w []
    else
      let inserted := mkUser sid (stored (u_username doc)) (stored room) (now e) in
      mkRun (Done tt) (with_users w (users w ++ [inserted])) [SessionCreated inserted].

(** [User.find({ room }).lean()] *)
Definition User_find (e : env) (room : jsstring) : M (list UserDoc) :=
  fun w =>
    if fault_User_find e then mkRun (Threw StoreError) w []
    else mkRun (Done (List.filter (user_in_room room) (users w))) w [].

(** [User.findOne({ socketId })] *)
Definition User_findOne (e : env) (sid : jsstring) : M (option UserDoc) :=
  fun w =>
    if fault_User_findOne e then mkRun (Threw StoreError) w []
    else mkRun (Done (List.find (has_socket sid) (users w))) w [].

(** The collection without its first document of socket id [sid]. *)
Fixpoint remove_first (sid : jsstring) (us : list UserDoc) : list UserDoc :=
  match us with
  | [] => []
  | u :: r => if has_socket sid u then r else u :: remove_first sid r
  end.

(** [User.findOneAndDelete({ socketId })] *)
Definition User_findOneAndDelete (e : env) (sid : jsstring) : M (option UserDoc) :=
  fun w =>
    if fault_User_findOneAndDelete e then mkRun (Threw StoreError) w []
    else
      match List.find (has_socket sid) (users w) with
      | None => mkRun (Done None) w []
      | Some u =>
          mkRun (Done (Some u)) (with_users w (remove_first sid (users w)))
                [SessionDeleted u]
      end.

(** [Message.create({ username, room, text })]; the schema trims
    [username] and requires the three fields.  It resolves with the
    document as built in memory, which [MessageSaved] records; the
    collection gets its stored form. *)
Definition Message_create (e : env) (username room text : jsstring) : M MessageDoc :=
  fun w =>
    let doc := mkMessage (trim username) room text (now e) in
    if negb (truthy (m_username doc)) || negb (truthy room) || negb (truthy text)
    then mkRun (Threw ValidationError) w []
    else if fault_Message_create e then mkRun (Threw StoreError) w []
    else mkRun (Done doc) (with_messages w (messages w ++ [stored_message doc]))
               [MessageSaved doc].

(** Sorting on [{ createdAt: -1 }]: newest first; documents of equal
    [createdAt] keep their natural order. *)
Fixpoint insert_desc (m : MessageDoc) (l : list MessageDoc) : list MessageDoc :=
  match l with
  | [] => [m]
  | x :: r =>
      if m_createdAt x <=? m_createdAt m then m :: l
      else x :: insert_desc m r
  end.

Definition sort_desc (l : list MessageDoc) : list MessageDoc :=
  List.fold_right insert_desc [] l.

(** [Message.find({ room }).sort({ createdAt: -1 }).limit(n).lean()] *)
Definition Message_find_recent (e : env) (room : jsstring) (n : nat)
  : M (list MessageDoc) :=
  fun w =>
    if fault_Message_find e then mkRun (Threw StoreError) w []
    else
      mkRun (Done (take n (sort_desc (List.filter (message_in_room room) (messages w)))))
            w [].

(* ================================================================== *)
(** ** Socket.IO rooms *)
(* ================================================================== *)

Definition members (w : world) (room : jsstring) : gset jsstring :=
  default ∅ (rooms w !! room).

(** [socket.join(room)] *)
Definition socket_join (sid room : jsstring) : M unit :=
  fun w =>
    mkRun (Done tt)
          (with_rooms w (<[room := {[sid]} ∪ members w room]> (rooms w)))
          [GroupJoined sid room].

(** On connection, before the server's ['connection'] listener runs,
    Socket.IO puts the socket in the room named after its own id. *)
Definition socket_connect (sid : jsstring) : M unit :=
  fun w =>
    mkRun (Done tt)
          (with_rooms w (<[sid := {[sid]} ∪ members w sid]> (rooms w)))
          [].

(** Socket.IO takes a closing socket out of every room, and drops the
    rooms left empty, before the ['disconnect'] listeners run. *)
Definition socket_leave_all (sid : jsstring) : M unit :=
  fun w =>
    mkRun (Done tt)
          (with_rooms w
             (omap (fun s : gset jsstring =>
                      let s' := s ∖ {[sid]} in
                      if decide (s' = ∅) then None else Some s')
                   (rooms w)))
          [].

(** The sockets an emission reaches. *)
Definition recipients (w : world) (t : target) : gset jsstring :=
  match t with
  | ToSocket sid => {[sid]}
  | ToRoom room => members w room
  | ToRoomExcept room sid => members w room ∖ {[sid]}
  end.

(* ================================================================== *)
(** ** The server: utilities and handlers of [server.js] *)
(* ================================================================== *)

Module Server.

Definition HISTORY_LIMIT : nat := 50.

(** [emitRoomUsers(room)] *)
Definition emitRoomUsers (e : env) (room : jsstring) : M unit :=
  usersInRoom <- User_find e room ;;
  emit (ToRoom room) (RoomUsersEv (List.map u_username usersInRoom)).

(** [serverMessage(text)] *)
Definition serverMessage (e : env) (text : jsstring) : Line :=
  mkLine (lit "Server") text (now e).

Definition required_notice (e : env) : server_event :=
  MessageEv (serverMessage e (lit "Username and room are required.")).

Definition join_failed_notice (e : env) : server_event :=
  MessageEv (serverMessage e (lit "Failed to join room. Please try again.")).

Definition send_failed_notice (e : env) : server_event :=
  MessageEv (serverMessage e (lit "Failed to send message.")).

Definition welcome_notice (e : env) (username room : jsstring) : server_event :=
  MessageEv (serverMessage e
    (lit "Welcome to " ++ room ++ lit ", " ++ username ++ lit "!")).

Definition joined_notice (e : env) (username : jsstring) : server_event :=
  MessageEv (serverMessage e (username ++ lit " has joined the chat.")).

Definition left_notice (e : env) (username : jsstring) : server_event :=
  MessageEv (serverMessage e (username ++ lit " has left the chat.")).

(** Steps 1 to 6 of the ['joinRoom'] listener, after its guard. *)
Definition joinRoom_steps (e : env) (socket username room : jsstring) : M unit :=
  User_create e socket username room ;;
  socket_join socket room ;;
  recent <- Message_find_recent e room HISTORY_LIMIT ;;
  emit (ToSocket socket) (MessageHistoryEv (rev recent)) ;;
  emit (ToSocket socket) (welcome_notice e username room) ;;
  emit (ToRoomExcept room socket) (joined_notice e username) ;;
  emitRoomUsers e room.

(** The [try] block of the ['joinRoom'] listener. *)
Definition joinRoom_body (e : env) (socket : jsstring)
    (username room : option jsstring) : M unit :=
  match username, room with
  | Some username, Some room =>
      if negb (truthy username) || negb (truthy room)
      then emit (ToSocket socket) (required_notice e)
      else joinRoom_steps e socket username room
  | _, _ => emit (ToSocket socket) (required_notice e)
  end.

(** [socket.on('joinRoom', async ({ username, room }) => ...)] *)
Definition joinRoom (e : env) (socket : jsstring)
    (username room : option jsstring) : M unit :=
  try_catch (joinRoom_body e socket username room)
            (fun _ => emit (ToSocket socket) (join_failed_notice e)).

(** The [try] block of the ['chat-message'] listener. *)
Definition chat_message_body (e : env) (socket : jsstring)
    (text : option jsstring) : M unit :=
  let trimmed := trim (or_empty text) in
  if negb (truthy trimmed) then ret tt
  else
    user <- User_findOne e socket ;;
    match user with
    | None => ret tt
    | Some user =>
        saved <- Message_create e (u_username user) (u_room user) trimmed ;;
        emit (ToRoom (u_room user))
             (MessageEv (mkLine (m_username saved) (m_text saved) (m_createdAt saved)))
    end.

(** [socket.on('chat-message', async (text) => ...)] *)
Definition chat_message (e : env) (socket : jsstring) (text : option jsstring) : M unit :=
  try_catch (chat_message_body e socket text)
            (fun _ => emit (ToSocket socket) (send_failed_notice e)).

(** [socket.on('typing', ...)]; its [catch] only logs. *)
Definition typing (e : env) (socket : jsstring) : M unit :=
  try_catch
    (user <- User_findOne e socket ;;
     match user with
     | None => ret tt
     | Some user => emit (ToRoomExcept (u_room user) socket) (TypingEv (u_username user))
     end)
    (fun _ => ret tt).

(** [socket.on('stopTyping', ...)]; its [catch] only logs. *)
Definition stopTyping (e : env) (socket : jsstring) : M unit :=
  try_catch
    (user <- User_findOne e socket ;;
     match user with
     | None => ret tt
     | Some user => emit (ToRoomExcept (u_room user) socket) (StopTypingEv (u_username user))
     end)
    (fun _ => ret tt).

(** [socket.on('disconnect', ...)]; its [catch] only logs. *)
Definition disconnect (e : env) (socket : jsstring) : M unit :=
  try_catch
    (user <- User_findOneAndDelete e socket ;;
     match user with
     | None => ret tt
     | Some user =>
         emit (ToRoom (u_room user)) (left_notice e (u_username user)) ;;
         emitRoomUsers e (u_room user)
     end)
    (fun _ => ret tt).

(** What arrives from a client: the four events it emits, and the
    opening and the closing of its connection. *)
Inductive client_event :=
| JoinRoom (username room : option jsstring)
| ChatMessage (text : option jsstring)
| Typing
| StopTyping
| Disconnect
| Connect.

(** Dispatch of one event of connection [socket]. *)
Definition handle (e : env) (socket : jsstring) (ev : client_event) : M unit :=
  match ev with
  | JoinRoom username room => joinRoom e socket username room
  | ChatMessage text => chat_message e socket text
  | Typing => typing e socket
  | StopTyping => stopTyping e socket
  | Disconnect => socket_leave_all socket ;; disconnect e socket
  | Connect => socket_connect socket
  end.

(** Events handled one after the other, each to completion. *)
Fixpoint handle_all (evs : list (env * jsstring * client_event)) : M unit :=
  match evs with
  | [] => ret tt
  | (e, socket, ev) :: rest => handle e socket ev ;; handle_all rest
  end.

(** The occupant list of a room, as [emitRoomUsers] computes it. *)
Definition occupants (w : world) (room : jsstring) : list jsstring :=
  List.map u_username (List.filter (user_in_room room) (users w)).

End Server.

Import Server.

(* ================================================================== *)
(** ** The client: typing signals of the chat page *)
(* ================================================================== *)

Module Client.

Import Server.

(** The composer value, [hasToldServerTypingRef.current], and whether
    the idle timer of [typingTimeoutRef] is armed. *)
Record state := mkState {
  msg : jsstring;
  hasToldServerTyping : bool;
  typingTimeout : bool
}.

(** [startTyping()]: the events emitted to the server, and the new state. *)
Definition startTyping (s : state) : state * list client_event :=
  let emitted := if negb (hasToldServerTyping s) then [Typing] else [] in
  (mkState (msg s) true true, emitted).

(** [stopTyping()] *)
Definition stopTyping (s : state) : state * list client_event :=
  let emitted := if hasToldServerTyping s then [StopTyping] else [] in
  (mkState (msg s) false false, emitted).

(** [onChangeMsg(e)] with [e.target.value = val] *)
Definition onChangeMsg (val : jsstring) (s : state) : state * list client_event :=
  let s' := mkState val (hasToldServerTyping s) (typingTimeout s) in
  if (0 <? length (trim val))%nat then startTyping s' else stopTyping s'.

(** [sendMessage(e)] *)
Definition sendMessage (s : state) : state * list client_event :=
  let text := trim (msg s) in
  if negb (truthy text) then (s, [])
  else
    let '(s1, emitted) := stopTyping s in
    (mkState [] (hasToldServerTyping s1) (typingTimeout s1),
     emitted ++ [ChatMessage (Some text)]).

End Client.

(* ================================================================== *)
(** ** Notions used in the statements *)
(* ================================================================== *)

(** No whitespace at the front. *)
Definition tight_front (s : jsstring) : Prop :=
  match s with [] => True | c :: _ => is_whitespace c = false end.

(** [a] is at least as recent as [b]. *)
Definition newer_eq (a b : MessageDoc) : Prop := m_createdAt b <= m_createdAt a.

(** [a] is at least as old as [b]. *)
Definition older_eq (a b : MessageDoc) : Prop := m_createdAt a <= m_createdAt b.

(** The persisted messages of a room, in natural order. *)
Definition room_messages (w : world) (room : jsstring) : list MessageDoc :=
  List.filter (message_in_room room) (messages w).

(** What step 3 of the ['joinRoom'] listener sends: the query result,
    reversed. *)
Definition history_of (w : world) (room : jsstring) : list MessageDoc :=
  rev (take HISTORY_LIMIT (sort_desc (room_messages w room))).

(** The document [User.create] stores for a join. *)
Definition session_doc (e : env) (socket username room : jsstring) : UserDoc :=
  mkUser socket (stored (trim username)) (stored room) (now e).

(** The state after steps 1 and 2 of a join. *)
Definition joined_world (e : env) (socket username room : jsstring) (w : world) : world :=
  mkWorld (users w ++ [session_doc e socket username room])
          (messages w)
          (<[room := {[socket]} ∪ members w room]> (rooms w)).

(** The effects of a join that runs to its end. *)
Definition join_effects (e : env) (socket username room : jsstring) (w : world)
  : list effect :=
  [ SessionCreated (session_doc e socket username room);
    GroupJoined socket room;
    Emitted (ToSocket socket) (MessageHistoryEv (history_of w room));
    Emitted (ToSocket socket) (welcome_notice e username room);
    Emitted (ToRoomExcept room socket) (joined_notice e username);
    Emitted (ToRoom room)
      (RoomUsersEv (occupants (joined_world e socket username room w) room)) ].

(** The document [Message.create] resolves with for a send by session
    [u]; the collection gets its stored form. *)
Definition message_doc (e : env) (u : UserDoc) (text : option jsstring) : MessageDoc :=
  mkMessage (trim (u_username u)) (u_room u) (trim (or_empty text)) (now e).

(** The effects of a send that runs to its end. *)
Definition send_effects (e : env) (u : UserDoc) (text : option jsstring) : list effect :=
  [ MessageSaved (message_doc e u text);
    Emitted (ToRoom (u_room u))
      (MessageEv (mkLine (trim (u_username u)) (trim (or_empty text)) (now e))) ].

(** Stored sessions have distinct socket ids, a trimmed non-empty
    username and a non-empty room. *)
Definition registry_ok (us : list UserDoc) : Prop :=
  NoDup (List.map u_socketId us) /\
  List.Forall (fun u => trim (u_username u) = u_username u /\
                        truthy (u_username u) = true /\
                        truthy (u_room u) = true) us.

(** The five ways a run of the ['joinRoom'] listener can end: rejected by
    the guard, stopped by [User.create], by the history query, by the
    roster query, or completed. *)
Inductive join_result (e : env) (socket : jsstring)
    (username room : option jsstring) (w : world) : run unit -> Prop :=
| JoinRejected :
    truthy_opt username && truthy_opt room = false ->
    join_result e socket username room w
      (mkRun (Done tt) w [Emitted (ToSocket socket) (required_notice e)])
| JoinCreateThrew u r err :
    username = Some u -> room = Some r ->
    res (User_create e socket u r w) = Threw err ->
    join_result e socket username room w
      (mkRun (Done tt) w [Emitted (ToSocket socket) (join_failed_notice e)])
| JoinHistoryThrew u r :
    username = Some u -> room = Some r ->
    res (User_create e socket u r w) = Done tt ->
    fault_Message_find e = true ->
    join_result e socket username room w
      (mkRun (Done tt) (joined_world e socket u r w)
         [ SessionCreated (session_doc e socket u r);
           GroupJoined socket r;
           Emitted (ToSocket socket) (join_failed_notice e) ])
| JoinRosterThrew u r :
    username = Some u -> room = Some r ->
    res (User_create e socket u r w) = Done tt ->
    fault_Message_find e = false -> fault_User_find e = true ->
    join_result e socket username room w
      (mkRun (Done tt) (joined_world e socket u r w)
         [ SessionCreated (session_doc e socket u r);
           GroupJoined socket r;
           Emitted (ToSocket socket) (MessageHistoryEv (history_of w r));
           Emitted (ToSocket socket) (welcome_notice e u r);
           Emitted (ToRoomExcept r socket) (joined_notice e u);
           Emitted (ToSocket socket) (join_failed_notice e) ])
| JoinCompleted u r :
    username = Some u -> room = Some r ->
    res (User_create e socket u r w) = Done tt ->
    fault_Message_find e = false -> fault_User_find e = false ->
    join_result e socket username room w
      (mkRun (Done tt) (joined_world e socket u r w)
             (join_effects e socket u r w)).

(** A state the server can be in: some events handled from the start. *)
Definition reachable (w : world) : Prop :=
  exists evs, w = final (handle_all evs empty_world).

(** Sample connections, users and rooms. *)
Definition conn1 : jsstring := lit "s1".
Definition conn2 : jsstring := lit "s2".
Definition ann : jsstring := lit "Ann".
Definition bob : jsstring := lit "Bob".
Definition room_x : jsstring := lit "X".
Definition room_y : jsstring := lit "Y".

(** The two sample connections are open, each in the room named after
    its id; nobody has joined. *)
Definition opened : world :=
  final (handle_all [ (calm 0, conn1, Connect); (calm 0, conn2, Connect) ]
                    empty_world).

(** Ann alone in room X, joined at time 1 on connection [conn1]. *)
Definition ann_in_x : world :=
  final (handle_all [ (calm 0, conn1, Connect); (calm 0, conn2, Connect);
                      (calm 1, conn1, JoinRoom (Some ann) (Some room_x)) ]
                    empty_world).

(** An emission addressed to a room rather than to one socket. *)
Definition is_broadcast (x : effect) : bool :=
  match x with
  | Emitted (ToRoom _) _ | Emitted (ToRoomExcept _ _) _ => true
  | _ => false
  end.

(** The store fails on the history query only. *)
Definition history_down : env := mkEnv 7 false false false false false true.

(** The store fails on saving a message only. *)
Definition save_down : env := mkEnv 8 false false false false true false.

(** The store fails on looking a session up only. *)
Definition lookup_down : env := mkEnv 9 false false true false false false.

(** The store fails on deleting a session only. *)
Definition delete_down : env := mkEnv 3 false false false true false false.

(** A ['stopTyping'] emission, whoever it is addressed to. *)
Definition is_stop_typing (x : effect) : bool :=
  match x with Emitted _ (StopTypingEv _) => true | _ => false end.

(** Ann and Bob are in room X, and Ann has signalled that she types. *)
Definition ann_typing : list (env * jsstring * client_event) :=
  [ (calm 0, conn1, Connect);
    (calm 0, conn2, Connect);
    (calm 1, conn1, JoinRoom (Some ann) (Some room_x));
    (calm 2, conn2, JoinRoom (Some bob) (Some room_x));
    (calm 3, conn1, Typing) ].

(** The events of one connection, each with the environment it meets. *)
Definition deliver (socket : jsstring) (envs : list env) (evs : list client_event)
  : list (env * jsstring * client_event) :=
  List.map (fun p => (fst p, socket, snd p)) (List.combine envs evs).

(** The (author, room) pair of a stored message or of a message
    broadcast to a room. *)
Definition authorship (x : effect) : list (jsstring * jsstring) :=
  match x with
  | MessageSaved m => [(m_username m, m_room m)]
  | Emitted (ToRoom r) (MessageEv l) => [(l_username l, r)]
  | _ => []
  end.

(** The (author, room) pairs of a run, in order. *)
Definition authorships (o : list effect) : list (jsstring * jsstring) :=
  List.flat_map authorship o.

(* ================================================================== *)
(** ** The chat page: composer actions, listeners and rendering *)
(* ================================================================== *)

Module Page.

Import Server.

(** What the user, or the idle timer, does to the composer. *)
Inductive action :=
| Change (val : jsstring)     (* onChange of the input *)
| Blur                        (* onBlur of the input *)
| Submit                      (* onSubmit of the form *)
| IdleTimeout.                (* the timer of [startTyping] fires *)

(** One action: the handler the page binds to it.  The timer callback
    runs [stopTyping()], and only an armed timer fires. *)
Definition act (a : action) (s : Client.state) : Client.state * list client_event :=
  match a with
  | Change val => Client.onChangeMsg val s
  | Blur => Client.stopTyping s
  | Submit => Client.sendMessage s
  | IdleTimeout => if Client.typingTimeout s then Client.stopTyping s else (s, [])
  end.

(** A sequence of actions, with everything emitted to the server. *)
Fixpoint acts (l : list action) (s : Client.state) : Client.state * list client_event :=
  match l with
  | [] => (s, [])
  | a :: rest =>
      let '(s1, o1) := act a s in
      let '(s2, o2) := acts rest s1 in
      (s2, o1 ++ o2)
  end.

(** The refs and the composer when the page mounts. *)
Definition fresh : Client.state := Client.mkState [] false false.

(** The mount effect: with a missing [username] or [room] query
    parameter the page goes back to the form and opens no socket;
    otherwise it connects and emits ['joinRoom']. *)
Definition mount (username room : option jsstring) : list client_event :=
  if negb (truthy_opt username) || negb (truthy_opt room) then []
  else [JoinRoom username room].

(** The page state the listeners write: [users], [messages] and
    [typingUsers] (a [Set], kept in insertion order). *)
Record view := mkView {
  v_users : list jsstring;
  v_messages : list Line;
  v_typingUsers : list jsstring
}.

(** [new Set(prev).add(who)] *)
Definition set_add (who : jsstring) (prev : list jsstring) : list jsstring :=
  if existsb (eqb who) prev then prev else prev ++ [who].

(** [next.delete(who)] *)
Definition set_delete (who : jsstring) (prev : list jsstring) : list jsstring :=
  List.filter (fun x => negb (eqb x who)) prev.

(** The fields of a history document the page reads. *)
Definition line_of_doc (m : MessageDoc) : Line :=
  mkLine (m_username m) (m_text m) (m_createdAt m).

(** The five listeners of the page of user [username]. *)
Definition receive (username : jsstring) (v : view) (ev : server_event) : view :=
  match ev with
  | MessageHistoryEv history =>
      mkView (v_users v) (List.map line_of_doc history) (v_typingUsers v)
  | MessageEv message =>
      mkView (v_users v) (v_messages v ++ [message]) (v_typingUsers v)
  | RoomUsersEv us =>
      mkView us (v_messages v) (v_typingUsers v)
  | TypingEv who =>
      if negb (truthy who) || eqb who username then v
      else mkView (v_users v) (v_messages v) (set_add who (v_typingUsers v))
  | StopTypingEv who =>
      if negb (truthy who) then v
      else mkView (v_users v) (v_messages v) (set_delete who (v_typingUsers v))
  end.

Definition receive_all (username : jsstring) (v : view) (evs : list server_event) : view :=
  List.fold_left (receive username) evs v.

Fixpoint digits (d : Decimal.uint) : jsstring :=
  match d with
  | Decimal.Nil => []
  | Decimal.D0 r => 48%N :: digits r
  | Decimal.D1 r => 49%N :: digits r
  | Decimal.D2 r => 50%N :: digits r
  | Decimal.D3 r => 51%N :: digits r
  | Decimal.D4 r => 52%N :: digits r
  | Decimal.D5 r => 53%N :: digits r
  | Decimal.D6 r => 54%N :: digits r
  | Decimal.D7 r => 55%N :: digits r
  | Decimal.D8 r => 56%N :: digits r
  | Decimal.D9 r => 57%N :: digits r
  end.

(** A count inside a template literal: its decimal digits. *)
Definition number_to_string (n : nat) : jsstring := digits (Nat.to_uint n).

(** The character U+2026 that ends the typing line. *)
Definition ELLIPSIS : jsstring := [8230%N].

(** [typingText], from [Array.from(typingUsers)]. *)
Definition typingText (arr : list jsstring) : jsstring :=
  match arr with
  | [] => []
  | [a] => a ++ lit " is typing" ++ ELLIPSIS
  | [a; b] => a ++ lit " and " ++ b ++ lit " are typing" ++ ELLIPSIS
  | a :: b :: _ =>
      a ++ lit ", " ++ b ++ lit " and " ++ number_to_string (length arr - 2)
        ++ lit " others are typing" ++ ELLIPSIS
  end.

End Page.

(* ================================================================== *)
(** ** Notions used in the further statements *)
(* ================================================================== *)

(** The typing signals of a connection are well alternated from flag
    [told], and a message is sent only with the flag down; the result is
    the flag at the end. *)
Fixpoint signals (told : bool) (evs : list client_event) : option bool :=
  match evs with
  | [] => Some told
  | Typing :: rest => if told then None else signals true rest
  | StopTyping :: rest => if told then signals false rest else None
  | ChatMessage _ :: rest => if told then None else signals false rest
  | _ :: rest => signals told rest
  end.

(** What one run of a listener delivers to socket [sid], in order.
    The room table does not change after the first emission of a run,
    so the groups are those of its final state. *)
Definition delivered (r : run unit) (sid : jsstring) : list server_event :=
  List.flat_map
    (fun x =>
       match x with
       | Emitted t ev =>
           if bool_decide (sid ∈ recipients (final r) t) then [ev] else []
       | _ => []
       end)
    (out r).

(** Persisted messages have a trimmed, non-empty text and non-empty
    author and room. *)
Definition log_ok (ms : list MessageDoc) : Prop :=
  List.Forall (fun m => trim (m_text m) = m_text m /\
                        truthy (m_text m) = true /\
                        truthy (m_username m) = true /\
                        truthy (m_room m) = true) ms.

(** Stored sessions hold strings in their stored form. *)
Definition registry_stored (us : list UserDoc) : Prop :=
  List.Forall (fun u => stored (u_username u) = u_username u /\
                        stored (u_room u) = u_room u) us.

(** A socket is in its own room, and in the rooms for which it holds a
    session (whose stored name is the stored form of the room's). *)
Definition groups_ok (w : world) : Prop :=
  forall room sid,
    sid ∈ members w room ->
    room = sid \/
    exists u, In u (users w) /\ u_socketId u = sid /\ u_room u = stored room.

(** The timer is armed exactly while the flag is up, and then the
    composer is not blank. *)
Definition composing (s : Client.state) : Prop :=
  Client.typingTimeout s = Client.hasToldServerTyping s /\
  (Client.hasToldServerTyping s = true -> trim (Client.msg s) <> []).



(* ================================================================== *)
(** ** Laws of the handler monad *)
(* ================================================================== *)

Lemma bind_done {A B} (m : M A) (k : A -> M B) (w : world)
    a w1 o1 r w2 o2 o :
  m w = mkRun (Done a) w1 o1 -> k a w1 = mkRun r w2 o2 -> o = o1 ++ o2 ->
  bind m k w = mkRun r w2 o.
Proof. intros Hm Hk ->. unfold bind. rewrite Hm. cbn [res final out]. now rewrite Hk. Qed.

Lemma bind_threw' {A B} (m : M A) (k : A -> M B) (w : world) err w1 o1 o :
  m w = mkRun (Threw err) w1 o1 -> o = o1 ->
  bind m k w = mkRun (Threw err) w1 o.
Proof. intros Hm ->. unfold bind. now rewrite Hm. Qed.

Lemma bind_threw {A B} (m : M A) (k : A -> M B) (w : world) err w1 o1 :
  m w = mkRun (Threw err) w1 o1 ->
  bind m k w = mkRun (Threw err) w1 o1.
Proof. intros Hm. unfold bind. now rewrite Hm. Qed.

(* ================================================================== *)
(** ** Facts about [trim] *)
(* ================================================================== *)

Section TrimFacts.

Implicit Types s : jsstring.

Lemma trimStart_tight s : tight_front (trimStart s).
Proof.
  induction s as [|c r IH]; simpl; [exact I|].
  destruct (is_whitespace c) eqn:Hc; [exact IH|exact Hc].
Qed.

Lemma trimStart_id s : tight_front s -> trimStart s = s.
Proof. destruct s as [|c r]; simpl; [reflexivity|]. now intros ->. Qed.

Lemma trimEnd_tight s : tight_front s -> tight_front (trimEnd s).
Proof.
  destruct s as [|c r]; simpl; [trivial|]. intros Hc.
  destruct (trimEnd r); [rewrite Hc|]; exact Hc.
Qed.

Lemma trimEnd_idem s : trimEnd (trimEnd s) = trimEnd s.
Proof.
  induction s as [|c r IH]; simpl; [reflexivity|].
  destruct (trimEnd r) as [|d r'] eqn:Hr.
  - destruct (is_whitespace c) eqn:Hc; simpl; [reflexivity|now rewrite Hc].
  - change (trimEnd (c :: d :: r')) with
      (match trimEnd (d :: r') with
       | [] => if is_whitespace c then [] else [c]
       | x => c :: x end).
    now rewrite IH.
Qed.

Lemma trim_idem s : trim (trim s) = trim s.
Proof.
  unfold trim.
  rewrite (trimStart_id (trimEnd (trimStart s))).
  - apply trimEnd_idem.
  - apply trimEnd_tight, trimStart_tight.
Qed.

Lemma trimStart_blank s : blank s -> trimStart s = [].
Proof.
  induction 1 as [|c r Hc _ IH]; simpl; [reflexivity|]. now rewrite Hc.
Qed.

Lemma trim_blank s : blank s -> trim s = [].
Proof. intros H. unfold trim. now rewrite trimStart_blank. Qed.

Lemma trimEnd_nil_blank s : trimEnd s = [] -> blank s.
Proof.
  induction s as [|c r IH]; simpl; intros H; [constructor|].
  destruct (trimEnd r) eqn:Hr; [|discriminate].
  destruct (is_whitespace c) eqn:Hc; [|discriminate].
  constructor; [exact Hc|now apply IH].
Qed.

Lemma trimStart_nil_blank s : trimStart s = [] -> blank s.
Proof.
  induction s as [|c r IH]; simpl; intros H; [constructor|].
  destruct (is_whitespace c) eqn:Hc; [|discriminate].
  constructor; [exact Hc|now apply IH].
Qed.

Lemma trimStart_suffix s : exists p, blank p /\ s = p ++ trimStart s.
Proof.
  induction s as [|c r [p [Hp Hs]]]; simpl.
  - exists []. split; [constructor|reflexivity].
  - destruct (is_whitespace c) eqn:Hc.
    + exists (c :: p). split; [now constructor|]. simpl. now rewrite <- Hs.
    + exists []. split; [constructor|reflexivity].
Qed.

(** The strings [trim] empties are exactly the blank ones. *)
Lemma trim_nil_iff s : trim s = [] <-> blank s.
Proof.
  split; [|apply trim_blank].
  unfold trim. intros H. apply trimEnd_nil_blank in H.
  destruct (trimStart s) as [|c r] eqn:Hs.
  - now apply trimStart_nil_blank.
  - pose proof (trimStart_tight s) as Ht. rewrite Hs in Ht. simpl in Ht.
    inversion H; congruence.
Qed.

Lemma truthy_false s : truthy s = false <-> s = [].
Proof. destruct s; simpl; split; congruence. Qed.

Lemma truthy_true s : truthy s = true <-> s <> [].
Proof. destruct s; simpl; split; congruence. Qed.

Lemma trim_or_empty_blank s : blank s -> trim (or_empty (Some s)) = [].
Proof.
  intros H. simpl. destruct (truthy s); [now apply trim_blank|reflexivity].
Qed.

Lemma eqb_eq (a b : jsstring) : eqb a b = true <-> a = b.
Proof. unfold eqb. apply bool_decide_eq_true. Qed.

Lemma eqb_refl (a : jsstring) : eqb a a = true.
Proof. now apply eqb_eq. Qed.

Lemma eqb_neq (a b : jsstring) : eqb a b = false <-> a <> b.
Proof. unfold eqb. apply bool_decide_eq_false. Qed.

End TrimFacts.

(* ================================================================== *)
(** ** Facts about [toWellFormed] *)
(* ================================================================== *)

Section WellFormedFacts.

Implicit Types s : jsstring.

Lemma surrogate_not_whitespace c :
  is_high_surrogate c || is_low_surrogate c = true -> is_whitespace c = false.
Proof.
  unfold is_high_surrogate, is_low_surrogate, is_whitespace. intros H.
  assert (Hc : (55296 <= c <= 57343)%N).
  { apply orb_prop in H as [H|H]; apply andb_prop in H as [H1 H2];
      apply N.leb_le in H1, H2; lia. }
  repeat apply orb_false_intro;
    try (apply N.eqb_neq; lia);
    apply andb_false_iff; right; apply N.leb_gt; lia.
Qed.

Lemma whitespace_not_surrogate c :
  is_whitespace c = true -> is_high_surrogate c = false /\ is_low_surrogate c = false.
Proof.
  intros Hw.
  destruct (is_high_surrogate c) eqn:Hh, (is_low_surrogate c) eqn:Hl; auto;
    rewrite surrogate_not_whitespace in Hw by (rewrite Hh, Hl; reflexivity);
    discriminate Hw.
Qed.

Lemma high_not_low c : is_high_surrogate c = true -> is_low_surrogate c = false.
Proof.
  unfold is_high_surrogate, is_low_surrogate. intros H.
  apply andb_prop in H as [H1 H2]. apply N.leb_le in H1, H2.
  apply andb_false_iff. left. apply N.leb_gt. lia.
Qed.

Lemma well_formed_unit_whitespace p c r :
  is_whitespace (well_formed_unit p c r) = is_whitespace c.
Proof.
  unfold well_formed_unit.
  destruct (is_high_surrogate c) eqn:Hh.
  - rewrite (surrogate_not_whitespace c) by (now rewrite Hh).
    destruct r as [|d r]; [reflexivity|].
    destruct (is_low_surrogate d); [|reflexivity].
    apply surrogate_not_whitespace. now rewrite Hh.
  - destruct (is_low_surrogate c) eqn:Hl; [|reflexivity].
    rewrite (surrogate_not_whitespace c) by (rewrite Hh, Hl; reflexivity).
    destruct p; [|reflexivity].
    apply surrogate_not_whitespace. rewrite Hh, Hl. reflexivity.
Qed.

Lemma trimStart_well_formed s :
  trimStart (toWellFormed s) = toWellFormed (trimStart s).
Proof.
  unfold toWellFormed. induction s as [|c r IH]; [reflexivity|].
  cbn [well_formed_from trimStart]. rewrite well_formed_unit_whitespace.
  destruct (is_whitespace c) eqn:Hw; [|reflexivity].
  destruct (whitespace_not_surrogate c Hw) as [-> _]. exact IH.
Qed.

Lemma trimEnd_head s d t : trimEnd s = d :: t -> exists t', s = d :: t'.
Proof.
  destruct s as [|c r]; cbn [trimEnd]; [discriminate|].
  destruct (trimEnd r); [destruct (is_whitespace c); [discriminate|]|];
    intros [= -> _]; eauto.
Qed.

Lemma well_formed_from_nil p s : well_formed_from p s = [] <-> s = [].
Proof. destruct s; cbn; split; congruence. Qed.

Lemma trimEnd_well_formed p s :
  trimEnd (well_formed_from p s) = well_formed_from p (trimEnd s).
Proof.
  revert p. induction s as [|c r IH]; intros p; [reflexivity|].
  cbn [well_formed_from trimEnd]. rewrite IH, well_formed_unit_whitespace.
  destruct (trimEnd r) as [|d t] eqn:Hr.
  - cbn [well_formed_from]. destruct (is_whitespace c) eqn:Hw; [reflexivity|].
    cbn [well_formed_from]. f_equal.
    apply trimEnd_nil_blank in Hr. unfold well_formed_unit.
    destruct (is_high_surrogate c); [|reflexivity].
    destruct r as [|d r]; [reflexivity|].
    inversion Hr as [|? ? Hd _]; subst.
    destruct (whitespace_not_surrogate d Hd) as [_ ->]. reflexivity.
  - destruct (trimEnd_head r d t Hr) as [t' ->].
    cbn [well_formed_from]. reflexivity.
Qed.

(** Trimming and the store's encoding commute. *)
Lemma trim_well_formed s : trim (toWellFormed s) = toWellFormed (trim s).
Proof.
  unfold trim. rewrite trimStart_well_formed. apply trimEnd_well_formed.
Qed.

Lemma replacement_plain :
  is_high_surrogate REPLACEMENT = false /\ is_low_surrogate REPLACEMENT = false.
Proof. split; reflexivity. Qed.

Lemma low_not_high c : is_low_surrogate c = true -> is_high_surrogate c = false.
Proof.
  intros Hl. destruct (is_high_surrogate c) eqn:Hh; [|reflexivity].
  rewrite (high_not_low c Hh) in Hl. discriminate Hl.
Qed.

Lemma well_formed_unit_paired_low d r :
  is_low_surrogate d = true -> well_formed_unit true d r = d.
Proof.
  intros Hl. unfold well_formed_unit. now rewrite (low_not_high d Hl), Hl.
Qed.

Lemma well_formed_unit_plain p c r :
  is_high_surrogate c = false -> is_low_surrogate c = false ->
  well_formed_unit p c r = c.
Proof. intros Hh Hl. unfold well_formed_unit. now rewrite Hh, Hl. Qed.

Lemma well_formed_unit_replacement p r :
  well_formed_unit p REPLACEMENT r = REPLACEMENT.
Proof. reflexivity. Qed.

Lemma well_formed_unit_idem p p' c r :
  (is_low_surrogate c = true -> p' = p) ->
  well_formed_unit p' (well_formed_unit p c r)
                   (well_formed_from (is_high_surrogate c) r) =
  well_formed_unit p c r.
Proof.
  intros Hp.
  destruct (is_high_surrogate c) eqn:Hh.
  - destruct r as [|d r'].
    + assert (Hx : well_formed_unit p c [] = REPLACEMENT)
        by (unfold well_formed_unit; now rewrite Hh).
      rewrite Hx. apply well_formed_unit_replacement.
    + destruct (is_low_surrogate d) eqn:Hd.
      * assert (Hx : well_formed_unit p c (d :: r') = c)
          by (unfold well_formed_unit; now rewrite Hh, Hd).
        rewrite Hx. cbn [well_formed_from].
        rewrite (well_formed_unit_paired_low d r' Hd).
        unfold well_formed_unit. now rewrite Hh, Hd.
      * assert (Hx : well_formed_unit p c (d :: r') = REPLACEMENT)
          by (unfold well_formed_unit; now rewrite Hh, Hd).
        rewrite Hx. apply well_formed_unit_replacement.
  - destruct (is_low_surrogate c) eqn:Hl.
    + rewrite (Hp eq_refl). destruct p.
      * assert (Hx : well_formed_unit true c r = c)
          by (unfold well_formed_unit; now rewrite Hh, Hl).
        rewrite Hx. unfold well_formed_unit. now rewrite Hh, Hl.
      * assert (Hx : well_formed_unit false c r = REPLACEMENT)
          by (unfold well_formed_unit; now rewrite Hh, Hl).
        rewrite Hx. apply well_formed_unit_replacement.
    + rewrite (well_formed_unit_plain p c r Hh Hl).
      now apply well_formed_unit_plain.
Qed.

Lemma well_formed_unit_high p c d r :
  is_low_surrogate d = true ->
  is_high_surrogate (well_formed_unit p c (d :: r)) = is_high_surrogate c.
Proof.
  intros Hd. unfold well_formed_unit.
  destruct (is_high_surrogate c) eqn:Hh; [now rewrite Hd|].
  destruct (is_low_surrogate c) eqn:Hl; [|exact Hh].
  destruct p; [exact Hh|reflexivity].
Qed.

Lemma well_formed_from_idem p p' s :
  (forall d r, s = d :: r -> is_low_surrogate d = true -> p' = p) ->
  well_formed_from p' (well_formed_from p s) = well_formed_from p s.
Proof.
  revert p p'. induction s as [|c r IH]; intros p p' Hp; [reflexivity|].
  cbn [well_formed_from]. f_equal.
  - apply well_formed_unit_idem. intros Hl. exact (Hp c r eq_refl Hl).
  - apply IH. intros d r' -> Hd. now apply well_formed_unit_high.
Qed.

Lemma toWellFormed_idem s : toWellFormed (toWellFormed s) = toWellFormed s.
Proof.
  unfold toWellFormed. apply well_formed_from_idem. intros d r -> Hd.
  reflexivity.
Qed.

Lemma toWellFormed_truthy s : truthy (toWellFormed s) = truthy s.
Proof. destruct s; reflexivity. Qed.

Lemma toWellFormed_nil s : toWellFormed s = [] <-> s = [].
Proof. apply well_formed_from_nil. Qed.

Lemma stored_trim_stable s : trim (stored (trim s)) = stored (trim s).
Proof. unfold stored. now rewrite trim_well_formed, trim_idem. Qed.

Lemma stored_idem s : stored (stored s) = stored s.
Proof. apply toWellFormed_idem. Qed.

Lemma stored_truthy s : truthy (stored s) = truthy s.
Proof. apply toWellFormed_truthy. Qed.

(** A lone surrogate is kept as U+FFFD, a surrogate pair as it is. *)
Example stored_lone_surrogate :
  stored [104; 55357; 105]%N = [104; 65533; 105]%N /\
  stored [104; 55357; 56832; 105]%N = [104; 55357; 56832; 105]%N.
Proof. split; reflexivity. Qed.

End WellFormedFacts.

(* ================================================================== *)
(** ** Facts about the newest-first query *)
(* ================================================================== *)

Section SortFacts.

Lemma insert_desc_perm m l : Permutation (insert_desc m l) (m :: l).
Proof.
  induction l as [|x r IH]; simpl; [reflexivity|].
  destruct (m_createdAt x <=? m_createdAt m); [reflexivity|].
  rewrite IH. apply perm_swap.
Qed.

Lemma sort_desc_perm l : Permutation (sort_desc l) l.
Proof.
  induction l as [|m r IH]; simpl; [reflexivity|].
  rewrite insert_desc_perm. now constructor.
Qed.

Lemma insert_desc_sorted m l :
  StronglySorted newer_eq l -> StronglySorted newer_eq (insert_desc m l).
Proof.
  induction 1 as [|x r Hr IH Hx]; simpl.
  - repeat constructor.
  - destruct (m_createdAt x <=? m_createdAt m) eqn:Hc.
    + apply Z.leb_le in Hc. constructor; [now constructor|].
      constructor; [exact Hc|].
      rewrite List.Forall_forall in Hx |- *. intros y Hy.
      specialize (Hx y Hy). unfold newer_eq in *. lia.
    + apply Z.leb_gt in Hc. constructor; [exact IH|].
      rewrite List.Forall_forall in Hx |- *. intros y Hy.
      apply (Permutation_in _ (insert_desc_perm m r)) in Hy.
      destruct Hy as [<-|Hy]; [unfold newer_eq; lia|now apply Hx].
Qed.

Lemma sort_desc_sorted l : StronglySorted newer_eq (sort_desc l).
Proof.
  induction l as [|m r IH]; simpl; [constructor|now apply insert_desc_sorted].
Qed.

Lemma sorted_app_cross {A} (R : A -> A -> Prop) (l1 l2 : list A) :
  StronglySorted R (l1 ++ l2) ->
  StronglySorted R l1 /\ StronglySorted R l2 /\
  (forall x y, In x l1 -> In y l2 -> R x y).
Proof.
  induction l1 as [|a l1 IH]; simpl; intros H.
  - repeat split; [constructor|exact H|intros ? ? []].
  - inversion H as [|? ? Hs Hall]; subst.
    destruct (IH Hs) as (H1 & H2 & H3).
    rewrite List.Forall_forall in Hall.
    repeat split; [|exact H2|].
    + constructor; [exact H1|]. rewrite List.Forall_forall. intros y Hy.
      apply Hall, in_or_app. now left.
    + intros x y [<-|Hx] Hy; [apply Hall, in_or_app; now right|now apply H3].
Qed.

Lemma sorted_snoc {A} (R : A -> A -> Prop) (l : list A) (x : A) :
  StronglySorted R l -> (forall y, In y l -> R y x) ->
  StronglySorted R (l ++ [x]).
Proof.
  induction 1 as [|a r Hr IH Ha]; simpl; intros Hx.
  - repeat constructor.
  - constructor.
    + apply IH. intros y Hy. apply Hx. now right.
    + rewrite List.Forall_forall in Ha |- *. intros y Hy.
      apply in_app_or in Hy. destruct Hy as [Hy|[<-|[]]].
      * now apply Ha.
      * apply Hx. now left.
Qed.

Lemma sorted_rev (l : list MessageDoc) :
  StronglySorted newer_eq l -> StronglySorted older_eq (rev l).
Proof.
  induction 1 as [|x r Hr IH Hx]; simpl; [constructor|].
  apply sorted_snoc; [exact IH|].
  rewrite List.Forall_forall in Hx. intros y Hy.
  apply in_rev in Hy. exact (Hx y Hy).
Qed.

End SortFacts.

(* ================================================================== *)
(** ** The history delivered on join *)
(* ================================================================== *)

Section History.

Lemma history_length w room :
  length (history_of w room) = Nat.min 50 (length (room_messages w room)).
Proof.
  unfold history_of, HISTORY_LIMIT.
  rewrite length_rev, length_take.
  now rewrite (Permutation_length (sort_desc_perm _)).
Qed.

Lemma history_ascending w room : StronglySorted older_eq (history_of w room).
Proof.
  unfold history_of. apply sorted_rev.
  pose proof (sort_desc_sorted (room_messages w room)) as Hs.
  rewrite <- (firstn_skipn HISTORY_LIMIT (sort_desc (room_messages w room))) in Hs.
  now apply sorted_app_cross in Hs.
Qed.

(** The messages left out are all at least as old as every delivered one. *)
Lemma history_most_recent w room :
  exists left_out,
    Permutation (history_of w room ++ left_out) (room_messages w room) /\
    (forall o m, In o left_out -> In m (history_of w room) -> older_eq o m).
Proof.
  exists (drop HISTORY_LIMIT (sort_desc (room_messages w room))). split.
  - unfold history_of. rewrite <- Permutation_rev.
    rewrite firstn_skipn. apply sort_desc_perm.
  - intros o m Ho Hm. unfold history_of in Hm. apply in_rev in Hm.
    pose proof (sort_desc_sorted (room_messages w room)) as Hs.
    rewrite <- (firstn_skipn HISTORY_LIMIT (sort_desc (room_messages w room))) in Hs.
    apply sorted_app_cross in Hs. destruct Hs as (_ & _ & Hc).
    exact (Hc m o Hm Ho).
Qed.

End History.

(* ================================================================== *)
(** ** Running the handlers *)
(* ================================================================== *)

Arguments lit : simpl never.
Arguments trim : simpl never.
Arguments sort_desc : simpl never.

Ltac break_if :=
  match goal with
  | |- context [if ?b then _ else _] => destruct b eqn:?
  | |- context [match List.find ?p ?l with _ => _ end] =>
      destruct (List.find p l) eqn:?
  end.

Lemma User_create_threw e socket username room w err :
  res (User_create e socket username room w) = Threw err ->
  User_create e socket username room w = mkRun (Threw err) w [].
Proof.
  unfold User_create. repeat break_if; cbn [res]; intros H;
    try discriminate H; now inversion H.
Qed.

Lemma User_create_done e socket username room w :
  res (User_create e socket username room w) = Done tt ->
  User_create e socket username room w =
    mkRun (Done tt) (with_users w (users w ++ [session_doc e socket username room]))
          [SessionCreated (session_doc e socket username room)]
  /\ truthy (trim username) = true /\ truthy room = true /\ truthy socket = true
  /\ existsb (has_socket socket) (users w) = false.
Proof.
  unfold User_create.
  destruct (negb (truthy (u_username _)) || _ || _) eqn:Hv;
    cbn [res]; [discriminate|].
  destruct (fault_User_create e); cbn [res]; [discriminate|].
  destruct (existsb _ _) eqn:Hx; cbn [res]; [discriminate|].
  intros _. cbn [u_username] in Hv.
  apply orb_false_elim in Hv as [Hv H3]. apply orb_false_elim in Hv as [H1 H2].
  apply negb_false_iff in H1, H2, H3. auto.
Qed.

Lemma User_create_cases e socket username room w :
  (exists err, res (User_create e socket username room w) = Threw err) \/
  res (User_create e socket username room w) = Done tt.
Proof.
  destruct (res (User_create e socket username room w)) as [[]|err] eqn:H; eauto.
Qed.

(** *** [joinRoom] *)

Lemma joinRoom_rejects e socket username room w :
  truthy_opt username && truthy_opt room = false ->
  joinRoom e socket username room w =
    mkRun (Done tt) w [Emitted (ToSocket socket) (required_notice e)].
Proof.
  intros H. unfold joinRoom, joinRoom_body, try_catch, emit.
  destruct username as [[|? ?]|], room as [[|? ?]|];
    cbn [truthy_opt truthy andb] in H; try discriminate H; reflexivity.
Qed.

Lemma joinRoom_body_guard_passed e socket username room :
  truthy username = true -> truthy room = true ->
  joinRoom_body e socket (Some username) (Some room) =
  joinRoom_steps e socket username room.
Proof. intros Hu Hr. unfold joinRoom_body. now rewrite Hu, Hr. Qed.

(** Where the six steps can stop, and what is done by then. *)
Lemma joinRoom_steps_run e socket username room w :
  joinRoom_steps e socket username room w =
    match res (User_create e socket username room w) with
    | Threw err => mkRun (Threw err) w []
    | Done _ =>
        if fault_Message_find e then
          mkRun (Threw StoreError) (joined_world e socket username room w)
            [ SessionCreated (session_doc e socket username room);
              GroupJoined socket room ]
        else if fault_User_find e then
          mkRun (Threw StoreError) (joined_world e socket username room w)
            [ SessionCreated (session_doc e socket username room);
              GroupJoined socket room;
              Emitted (ToSocket socket) (MessageHistoryEv (history_of w room));
              Emitted (ToSocket socket) (welcome_notice e username room);
              Emitted (ToRoomExcept room socket) (joined_notice e username) ]
        else
          mkRun (Done tt) (joined_world e socket username room w)
                (join_effects e socket username room w)
    end.
Proof.
  unfold joinRoom_steps.
  destruct (User_create_cases e socket username room w) as [[err Hc]|Hc].
  - rewrite Hc. apply User_create_threw in Hc. now apply bind_threw.
  - rewrite Hc. apply User_create_done in Hc as [Hc _].
    destruct (fault_Message_find e) eqn:Hf.
    { eapply bind_done; [exact Hc| |reflexivity].
      eapply bind_done; [reflexivity| |reflexivity].
      apply bind_threw. unfold Message_find_recent. now rewrite Hf. }
    destruct (fault_User_find e) eqn:Hg.
    { eapply bind_done; [exact Hc| |reflexivity].
      eapply bind_done; [reflexivity| |reflexivity].
      eapply bind_done;
        [unfold Message_find_recent; rewrite Hf; reflexivity| |reflexivity].
      do 3 (eapply bind_done; [reflexivity| |reflexivity]).
      unfold emitRoomUsers. eapply bind_threw'; [|reflexivity].
      unfold User_find. now rewrite Hg. }
    eapply bind_done; [exact Hc| |reflexivity].
    eapply bind_done; [reflexivity| |reflexivity].
    eapply bind_done;
      [unfold Message_find_recent; rewrite Hf; reflexivity| |reflexivity].
    do 3 (eapply bind_done; [reflexivity| |reflexivity]).
    unfold emitRoomUsers.
    eapply bind_done; [unfold User_find; rewrite Hg; reflexivity| |reflexivity].
    reflexivity.
Qed.

Lemma joinRoom_create_threw e socket username room w err :
  truthy username = true -> truthy room = true ->
  res (User_create e socket username room w) = Threw err ->
  joinRoom e socket (Some username) (Some room) w =
    mkRun (Done tt) w [Emitted (ToSocket socket) (join_failed_notice e)].
Proof.
  intros Hu Hr Hc. unfold joinRoom, try_catch.
  rewrite joinRoom_body_guard_passed, joinRoom_steps_run, Hc by assumption.
  reflexivity.
Qed.

(** The join stops at the history query: steps 1 and 2 stay done. *)
Lemma joinRoom_history_threw e socket username room w :
  truthy username = true -> truthy room = true ->
  res (User_create e socket username room w) = Done tt ->
  fault_Message_find e = true ->
  joinRoom e socket (Some username) (Some room) w =
    mkRun (Done tt) (joined_world e socket username room w)
      [ SessionCreated (session_doc e socket username room);
        GroupJoined socket room;
        Emitted (ToSocket socket) (join_failed_notice e) ].
Proof.
  intros Hu Hr Hc Hf. unfold joinRoom, try_catch.
  rewrite joinRoom_body_guard_passed, joinRoom_steps_run, Hc, Hf by assumption.
  reflexivity.
Qed.

(** The join stops at the roster query of [emitRoomUsers]. *)
Lemma joinRoom_roster_threw e socket username room w :
  truthy username = true -> truthy room = true ->
  res (User_create e socket username room w) = Done tt ->
  fault_Message_find e = false -> fault_User_find e = true ->
  joinRoom e socket (Some username) (Some room) w =
    mkRun (Done tt) (joined_world e socket username room w)
      [ SessionCreated (session_doc e socket username room);
        GroupJoined socket room;
        Emitted (ToSocket socket) (MessageHistoryEv (history_of w room));
        Emitted (ToSocket socket) (welcome_notice e username room);
        Emitted (ToRoomExcept room socket) (joined_notice e username);
        Emitted (ToSocket socket) (join_failed_notice e) ].
Proof.
  intros Hu Hr Hc Hf Hg. unfold joinRoom, try_catch.
  rewrite joinRoom_body_guard_passed, joinRoom_steps_run, Hc, Hf, Hg by assumption.
  reflexivity.
Qed.

Lemma joinRoom_completes e socket username room w :
  truthy username = true -> truthy room = true ->
  res (User_create e socket username room w) = Done tt ->
  fault_Message_find e = false -> fault_User_find e = false ->
  joinRoom e socket (Some username) (Some room) w =
    mkRun (Done tt) (joined_world e socket username room w)
          (join_effects e socket username room w).
Proof.
  intros Hu Hr Hc Hf Hg. unfold joinRoom, try_catch.
  rewrite joinRoom_body_guard_passed, joinRoom_steps_run, Hc, Hf, Hg by assumption.
  reflexivity.
Qed.

(** A join whose [try] block ends without throwing went through all six
    steps. *)
Lemma joinRoom_body_done e socket username room w :
  truthy username = true -> truthy room = true ->
  res (joinRoom_body e socket (Some username) (Some room) w) = Done tt ->
  res (User_create e socket username room w) = Done tt /\
  fault_Message_find e = false /\ fault_User_find e = false.
Proof.
  intros Hu Hr.
  rewrite joinRoom_body_guard_passed, joinRoom_steps_run by assumption.
  destruct (res (User_create e socket username room w)) as [[]|err];
    [|discriminate].
  destruct (fault_Message_find e); [discriminate|].
  destruct (fault_User_find e); [discriminate|]. auto.
Qed.

(** *** [chat-message] *)

Lemma chat_message_run e socket text w :
  chat_message e socket text w =
    if negb (truthy (trim (or_empty text))) then mkRun (Done tt) w []
    else if fault_User_findOne e then
      mkRun (Done tt) w [Emitted (ToSocket socket) (send_failed_notice e)]
    else
      match List.find (has_socket socket) (users w) with
      | None => mkRun (Done tt) w []
      | Some u =>
          match res (Message_create e (u_username u) (u_room u)
                                    (trim (or_empty text)) w) with
          | Threw _ =>
              mkRun (Done tt) w [Emitted (ToSocket socket) (send_failed_notice e)]
          | Done _ =>
              mkRun (Done tt)
                    (with_messages w (messages w ++ [stored_message (message_doc e u text)]))
                    (send_effects e u text)
          end
      end.
Proof.
  unfold chat_message, chat_message_body, try_catch.
  destruct (negb (truthy (trim (or_empty text)))); [reflexivity|].
  unfold bind, User_findOne.
  destruct (fault_User_findOne e); cbn [res final out app]; [reflexivity|].
  destruct (List.find (has_socket socket) (users w)) as [u|];
    cbn [res final out app]; [|reflexivity].
  unfold Message_create, emit.
  destruct (negb (truthy (m_username _)) || _ || _);
    cbn [res final out app]; [reflexivity|].
  destruct (fault_Message_create e); cbn [res final out app]; reflexivity.
Qed.

(** *** [typing] and [stopTyping] *)

Lemma typing_run e socket w :
  typing e socket w =
    mkRun (Done tt) w
      (if fault_User_findOne e then []
       else match List.find (has_socket socket) (users w) with
            | None => []
            | Some u => [Emitted (ToRoomExcept (u_room u) socket)
                                 (TypingEv (u_username u))]
            end).
Proof.
  unfold typing, try_catch, bind, User_findOne, emit, ret.
  destruct (fault_User_findOne e); cbn [res final out app]; [reflexivity|].
  destruct (List.find (has_socket socket) (users w)) as [u|];
    cbn [res final out app]; reflexivity.
Qed.

Lemma stopTyping_run e socket w :
  stopTyping e socket w =
    mkRun (Done tt) w
      (if fault_User_findOne e then []
       else match List.find (has_socket socket) (users w) with
            | None => []
            | Some u => [Emitted (ToRoomExcept (u_room u) socket)
                                 (StopTypingEv (u_username u))]
            end).
Proof.
  unfold stopTyping, try_catch, bind, User_findOne, emit, ret.
  destruct (fault_User_findOne e); cbn [res final out app]; [reflexivity|].
  destruct (List.find (has_socket socket) (users w)) as [u|];
    cbn [res final out app]; reflexivity.
Qed.

(** *** [disconnect] *)

Lemma disconnect_run e socket w :
  disconnect e socket w =
    if fault_User_findOneAndDelete e then mkRun (Done tt) w []
    else
      match List.find (has_socket socket) (users w) with
      | None => mkRun (Done tt) w []
      | Some u =>
          let w' := with_users w (remove_first socket (users w)) in
          mkRun (Done tt) w'
            (SessionDeleted u
             :: Emitted (ToRoom (u_room u)) (left_notice e (u_username u))
             :: (if fault_User_find e then []
                 else [Emitted (ToRoom (u_room u))
                               (RoomUsersEv (occupants w' (u_room u)))]))
      end.
Proof.
  unfold disconnect, emitRoomUsers, try_catch, bind, User_findOneAndDelete.
  destruct (fault_User_findOneAndDelete e); cbn [res final out app];
    [reflexivity|].
  destruct (List.find (has_socket socket) (users w)) as [u|];
    cbn [res final out app]; [|reflexivity].
  unfold User_find, emit.
  destruct (fault_User_find e); cbn [res final out app]; reflexivity.
Qed.

(* ================================================================== *)
(** ** The session registry keeps one session per connection *)
(* ================================================================== *)

Lemma existsb_has_socket_false socket us :
  existsb (has_socket socket) us = false ->
  ~ In socket (List.map u_socketId us).
Proof.
  induction us as [|u r IH]; simpl; [tauto|].
  intros H. apply orb_false_elim in H as [H1 H2].
  intros [Heq|Hin]; [|now apply IH].
  unfold has_socket in H1. apply eqb_neq in H1. congruence.
Qed.

Lemma find_has_socket socket us u :
  List.find (has_socket socket) us = Some u ->
  In u us /\ u_socketId u = socket.
Proof.
  intros H. apply find_some in H as [Hin Hs]. split; [exact Hin|].
  now apply eqb_eq.
Qed.

Lemma find_none_existsb socket us :
  List.find (has_socket socket) us = None <->
  existsb (has_socket socket) us = false.
Proof.
  induction us as [|u r IH]; simpl; [tauto|].
  destruct (has_socket socket u); simpl; [split; discriminate|exact IH].
Qed.

Lemma remove_first_subset socket us x :
  In x (remove_first socket us) -> In x us.
Proof.
  induction us as [|u r IH]; simpl; [tauto|].
  destruct (has_socket socket u); simpl; [auto|]. intros [H|H]; auto.
Qed.

Lemma remove_first_none socket us :
  List.find (has_socket socket) us = None -> remove_first socket us = us.
Proof.
  induction us as [|u r IH]; simpl; [reflexivity|].
  destruct (has_socket socket u); [discriminate|]. intros H. now rewrite IH.
Qed.

(** Deleting the session just appended restores the collection. *)
Lemma remove_first_snoc socket us u :
  List.find (has_socket socket) us = None -> u_socketId u = socket ->
  remove_first socket (us ++ [u]) = us.
Proof.
  intros Hn Hu. induction us as [|x r IH]; simpl in *.
  - unfold has_socket. rewrite Hu, eqb_refl. reflexivity.
  - destruct (has_socket socket x); [discriminate|]. now rewrite IH.
Qed.

Lemma find_snoc socket us u :
  List.find (has_socket socket) us = None -> u_socketId u = socket ->
  List.find (has_socket socket) (us ++ [u]) = Some u.
Proof.
  intros Hn Hu. induction us as [|x r IH]; simpl in *.
  - unfold has_socket. rewrite Hu, eqb_refl. reflexivity.
  - destruct (has_socket socket x); [discriminate|]. now apply IH.
Qed.

Lemma registry_ok_snoc us u :
  registry_ok us -> ~ In (u_socketId u) (List.map u_socketId us) ->
  trim (u_username u) = u_username u -> truthy (u_username u) = true ->
  truthy (u_room u) = true ->
  registry_ok (us ++ [u]).
Proof.
  intros [Hnd Hall] Hfresh H1 H2 H3. split.
  - rewrite List.map_app. simpl. apply NoDup_ListNoDup.
    apply NoDup_ListNoDup in Hnd.
    apply List.NoDup_app; [exact Hnd|repeat constructor; simpl; tauto|].
    intros x Hx [<-|[]]. contradiction.
  - apply List.Forall_app. split; [exact Hall|]. repeat constructor; assumption.
Qed.

Lemma registry_ok_remove socket us :
  registry_ok us -> registry_ok (remove_first socket us).
Proof.
  intros [Hnd Hall]. apply NoDup_ListNoDup in Hnd. split.
  - apply NoDup_ListNoDup.
    induction us as [|u r IH]; simpl in *; [constructor|].
    inversion Hnd as [|? ? Hnot Hr]; subst. inversion Hall; subst.
    destruct (has_socket socket u); [exact Hr|]. simpl. constructor.
    + intros Hin. apply Hnot. apply in_map_iff in Hin as (x & Hx & Hin).
      apply in_map_iff. exists x. split; [exact Hx|].
      eapply remove_first_subset; eauto.
    + inversion Hall; subst. now apply IH.
  - rewrite List.Forall_forall in Hall |- *. intros x Hx.
    apply Hall. eapply remove_first_subset; eauto.
Qed.

(** With distinct socket ids, a connection holds at most one session. *)
Lemma registry_ok_one_session socket us u :
  registry_ok us -> List.find (has_socket socket) us = Some u ->
  List.filter (has_socket socket) us = [u].
Proof.
  intros [Hnd _]. apply NoDup_ListNoDup in Hnd.
  induction us as [|x r IH]; simpl; [discriminate|].
  inversion Hnd as [|? ? Hnot Hr]; subst.
  destruct (has_socket socket x) eqn:Hx.
  - intros [= ->]. f_equal.
    unfold has_socket in Hx. apply eqb_eq in Hx.
    assert (Hnone : forall y, In y r -> has_socket socket y = false).
    { intros y Hy. unfold has_socket. apply eqb_neq. intros Heq.
      apply Hnot. rewrite Hx, <- Heq. now apply in_map. }
    clear -Hnone. induction r as [|y r IH]; simpl; [reflexivity|].
    rewrite (Hnone y) by now left. apply IH. intros z Hz. apply Hnone. now right.
  - intros H. now apply IH.
Qed.

(* ================================================================== *)
(** ** Every way a join can end *)
(* ================================================================== *)

Lemma joinRoom_result e socket username room w :
  join_result e socket username room w (joinRoom e socket username room w).
Proof.
  destruct (truthy_opt username && truthy_opt room) eqn:Hg.
  - apply andb_prop in Hg as [Hu Hr].
    destruct username as [u|]; [|discriminate Hu].
    destruct room as [r|]; [|discriminate Hr].
    cbn [truthy_opt] in Hu, Hr.
    destruct (User_create_cases e socket u r w) as [[err Hc]|Hc].
    + rewrite (joinRoom_create_threw e socket u r w err) by assumption.
      eapply JoinCreateThrew; eauto.
    + destruct (fault_Message_find e) eqn:Hf.
      * rewrite joinRoom_history_threw by assumption.
        eapply JoinHistoryThrew; eauto.
      * destruct (fault_User_find e) eqn:Hx.
        -- rewrite joinRoom_roster_threw by assumption.
           eapply JoinRosterThrew; eauto.
        -- rewrite joinRoom_completes by assumption.
           eapply JoinCompleted; eauto.
  - rewrite joinRoom_rejects by assumption. now apply JoinRejected.
Qed.

(* ================================================================== *)
(** ** Reachable states *)
(* ================================================================== *)

Lemma handle_done e socket ev w : res (handle e socket ev w) = Done tt.
Proof.
  destruct ev as [username room|text| | | |]; cbn [handle].
  - destruct (joinRoom_result e socket username room w); reflexivity.
  - rewrite chat_message_run. repeat break_if; reflexivity.
  - now rewrite typing_run.
  - now rewrite stopTyping_run.
  - unfold bind, socket_leave_all. cbn [res final out].
    rewrite disconnect_run. repeat break_if; reflexivity.
  - reflexivity.
Qed.

Lemma handle_all_cons e socket ev rest w :
  final (handle_all ((e, socket, ev) :: rest) w) =
  final (handle_all rest (final (handle e socket ev w))).
Proof.
  cbn [handle_all]. unfold bind. now rewrite handle_done.
Qed.

Lemma handle_all_out_cons e socket ev rest w :
  out (handle_all ((e, socket, ev) :: rest) w) =
  out (handle e socket ev w) ++ out (handle_all rest (final (handle e socket ev w))).
Proof.
  cbn [handle_all]. unfold bind. now rewrite handle_done.
Qed.

Lemma handle_registry_ok e socket ev w :
  registry_ok (users w) -> registry_ok (users (final (handle e socket ev w))).
Proof.
  intros Hok. destruct ev as [username room|text| | | |]; cbn [handle].
  - destruct (joinRoom_result e socket username room w)
      as [?|? ? ? ? ? ?|u r ? ? Hc ?|u r ? ? Hc ? ?|u r ? ? Hc ? ?];
      cbn [final]; try exact Hok;
      apply User_create_done in Hc as (_ & Hname & Hroom & _ & Hfresh);
      (apply registry_ok_snoc;
       [ exact Hok | now apply existsb_has_socket_false
       | apply stored_trim_stable
       | cbn [session_doc u_username]; now rewrite stored_truthy
       | cbn [session_doc u_room]; now rewrite stored_truthy ]).
  - rewrite chat_message_run. repeat break_if; exact Hok.
  - now rewrite typing_run.
  - now rewrite stopTyping_run.
  - unfold bind, socket_leave_all. cbn [res final out].
    rewrite disconnect_run. repeat break_if; cbn [final with_users with_rooms users];
      try exact Hok; now apply registry_ok_remove.
  - exact Hok.
Qed.

Lemma handle_all_registry_ok evs w :
  registry_ok (users w) -> registry_ok (users (final (handle_all evs w))).
Proof.
  revert w. induction evs as [|[[e socket] ev] rest IH]; intros w Hok.
  - exact Hok.
  - rewrite handle_all_cons. apply IH. now apply handle_registry_ok.
Qed.

Lemma reachable_registry_ok w : reachable w -> registry_ok (users w).
Proof.
  intros [evs ->]. apply handle_all_registry_ok.
  split; constructor.
Qed.

(* ================================================================== *)
(** ** The sample state is reachable *)
(* ================================================================== *)

Lemma ann_in_x_reachable : reachable ann_in_x.
Proof. eexists. reflexivity. Qed.

(* ================================================================== *)
(** ** Order of effects of a join *)
(* ================================================================== *)

Lemma no_group_joined_split (o pre post : list effect) sid r :
  (forall s' r', ~ In (GroupJoined s' r') o) ->
  o <> pre ++ GroupJoined sid r :: post.
Proof.
  intros Hno ->. apply (Hno sid r). apply in_or_app. right. now left.
Qed.

Lemma group_joined_second (doc : UserDoc) s r0 rest pre sid r post :
  (forall s' r', ~ In (GroupJoined s' r') rest) ->
  SessionCreated doc :: GroupJoined s r0 :: rest = pre ++ GroupJoined sid r :: post ->
  pre = [SessionCreated doc] /\ sid = s /\ r = r0.
Proof.
  intros Hno H. destruct pre as [|a [|b pre]]; cbn [app] in H.
  - discriminate H.
  - injection H as -> -> -> _. auto.
  - injection H as _ _ Hrest. exfalso. revert Hrest.
    now apply no_group_joined_split.
Qed.

Ltac no_group_joined :=
  let s := fresh in let r := fresh in let H := fresh in
  intros s r H; cbn [In] in H;
  repeat (destruct H as [H|H]; [discriminate H|]); exact H.

Lemma members_joined_world e socket u r w :
  members (joined_world e socket u r w) r = {[socket]} ∪ members w r.
Proof.
  unfold members at 1. cbn [joined_world rooms].
  now rewrite lookup_insert_eq.
Qed.

(** C1. A join that succeeds performs exactly: persist the session,
    enroll the connection in the room, unicast the history, unicast the
    welcome notice, broadcast the join notice to the others, emit the
    membership list to the whole room, in this order; after it the
    session is in the registry and the connection is a member of the
    room's broadcast group.  And in every run of the listener,
    successful or not, an enrollment is immediately preceded by the
    creation of this connection's session, which is then in the
    registry. *)
Theorem joinRoom_effects_in_fixed_order e socket username room w :
  (truthy_opt username = true -> truthy_opt room = true ->
   res (joinRoom_body e socket username room w) = Done tt ->
   exists u r,
     username = Some u /\ room = Some r /\
     out (joinRoom e socket username room w) =
       [ SessionCreated (session_doc e socket u r);
         GroupJoined socket r;
         Emitted (ToSocket socket) (MessageHistoryEv (history_of w r));
         Emitted (ToSocket socket) (welcome_notice e u r);
         Emitted (ToRoomExcept r socket) (joined_notice e u);
         Emitted (ToRoom r)
           (RoomUsersEv (occupants (final (joinRoom e socket username room w)) r)) ] /\
     In (session_doc e socket u r)
        (users (final (joinRoom e socket username room w))) /\
     socket ∈ members (final (joinRoom e socket username room w)) r /\
     socket ∈ recipients (final (joinRoom e socket username room w)) (ToRoom r))
  /\
  (forall pre sid r post,
     out (joinRoom e socket username room w) = pre ++ GroupJoined sid r :: post ->
     exists doc,
       pre = [SessionCreated doc] /\ u_socketId doc = socket /\ sid = socket /\
       In doc (users (final (joinRoom e socket username room w))) /\
       sid ∈ members (final (joinRoom e socket username room w)) r).
Proof.
  split.
  - intros Hu Hr Hdone.
    destruct username as [u|]; [|discriminate Hu].
    destruct room as [r|]; [|discriminate Hr].
    cbn [truthy_opt] in Hu, Hr.
    destruct (joinRoom_body_done e socket u r w Hu Hr Hdone) as (Hc & Hf & Hg).
    exists u, r. rewrite joinRoom_completes by assumption.
    cbn [final out recipients]. rewrite members_joined_world.
    repeat split; try reflexivity.
    + cbn [joined_world users]. apply in_or_app. right. now left.
    + apply elem_of_union_l. now apply elem_of_singleton.
    + apply elem_of_union_l. now apply elem_of_singleton.
  - intros pre sid r post.
    destruct (joinRoom_result e socket username room w)
      as [?|? ? ? ? ? ?|u r0 ? ? Hc ?|u r0 ? ? Hc ? ?|u r0 ? ? Hc ? ?];
      cbn [out final]; intros Hsplit.
    + exfalso. revert Hsplit. apply no_group_joined_split. no_group_joined.
    + exfalso. revert Hsplit. apply no_group_joined_split. no_group_joined.
    + apply group_joined_second in Hsplit as (-> & -> & ->); [|no_group_joined].
      eexists. repeat split.
      * cbn [joined_world users]. apply in_or_app. right. now left.
      * rewrite members_joined_world. apply elem_of_union_l.
        now apply elem_of_singleton.
    + apply group_joined_second in Hsplit as (-> & -> & ->); [|no_group_joined].
      eexists. repeat split.
      * cbn [joined_world users]. apply in_or_app. right. now left.
      * rewrite members_joined_world. apply elem_of_union_l.
        now apply elem_of_singleton.
    + unfold join_effects in Hsplit.
      apply group_joined_second in Hsplit as (-> & -> & ->); [|no_group_joined].
      eexists. repeat split.
      * cbn [joined_world users]. apply in_or_app. right. now left.
      * rewrite members_joined_world. apply elem_of_union_l.
        now apply elem_of_singleton.
Qed.

Lemma joinRoom_effects_in_fixed_order_witness :
  exists u r,
    Some ann = Some u /\ Some room_x = Some r /\
    out (joinRoom (calm 1) conn1 (Some ann) (Some room_x) opened) =
      [ SessionCreated (session_doc (calm 1) conn1 u r);
        GroupJoined conn1 r;
        Emitted (ToSocket conn1) (MessageHistoryEv (history_of opened r));
        Emitted (ToSocket conn1) (welcome_notice (calm 1) u r);
        Emitted (ToRoomExcept r conn1) (joined_notice (calm 1) u);
        Emitted (ToRoom r)
          (RoomUsersEv
             (occupants
                (final (joinRoom (calm 1) conn1 (Some ann) (Some room_x) opened))
                r)) ] /\
    In (session_doc (calm 1) conn1 u r)
       (users (final (joinRoom (calm 1) conn1 (Some ann) (Some room_x) opened))) /\
    conn1 ∈ members (final (joinRoom (calm 1) conn1 (Some ann) (Some room_x) opened)) r /\
    conn1 ∈ recipients (final (joinRoom (calm 1) conn1 (Some ann) (Some room_x) opened))
                       (ToRoom r).
Proof.
  refine (proj1 (joinRoom_effects_in_fixed_order (calm 1) conn1 (Some ann)
                   (Some room_x) opened) _ _ _);
    vm_compute; reflexivity.
Defined.

(* ================================================================== *)
(** ** History on join *)
(* ================================================================== *)

(** C3. The history a join delivers is the query result reversed: the
    [min 50 total] most recent persisted messages of the room, oldest
    first; every left-out message is at least as old as every delivered
    one.  A join that succeeds sends it, and no run of the listener
    sends a history to anyone but the joining socket. *)
Theorem join_history_recent_ascending_unicast e socket username room w :
  (forall u r, username = Some u -> room = Some r ->
     truthy u = true -> truthy r = true ->
     res (joinRoom_body e socket username room w) = Done tt ->
     In (Emitted (ToSocket socket) (MessageHistoryEv (history_of w r)))
        (out (joinRoom e socket username room w)))
  /\
  (forall t h,
     In (Emitted t (MessageHistoryEv h)) (out (joinRoom e socket username room w)) ->
     t = ToSocket socket /\
     recipients (final (joinRoom e socket username room w)) t = {[socket]} /\
     exists r, room = Some r /\ h = history_of w r)
  /\
  (forall r,
     history_of w r = rev (take 50 (sort_desc (room_messages w r))) /\
     length (history_of w r) = Nat.min 50 (length (room_messages w r)) /\
     StronglySorted older_eq (history_of w r) /\
     exists left_out,
       Permutation (history_of w r ++ left_out) (room_messages w r) /\
       forall o m, In o left_out -> In m (history_of w r) -> older_eq o m).
Proof.
  split; [|split].
  - intros u r -> -> Hu Hr Hdone.
    destruct (joinRoom_body_done e socket u r w Hu Hr Hdone) as (Hc & Hf & Hg).
    rewrite joinRoom_completes by assumption.
    cbn [out join_effects In]. auto.
  - intros t h.
    destruct (joinRoom_result e socket username room w)
      as [?|? ? ? ? ? ?|u r0 ? ? Hc ?|u r0 ? ? Hc ? ?|u r0 ? ? Hc ? ?];
      cbn [out final join_effects In]; intros Hin;
      repeat (destruct Hin as [Hin|Hin]; [try discriminate Hin|]);
      try contradiction;
      injection Hin as <- <-; (split; [reflexivity|split; [reflexivity|eauto]]).
  - intros r. split; [reflexivity|]. split; [apply history_length|].
    split; [apply history_ascending|apply history_most_recent].
Qed.

Lemma join_history_recent_ascending_unicast_witness :
  In (Emitted (ToSocket conn2) (MessageHistoryEv (history_of ann_in_x room_x)))
     (out (joinRoom (calm 2) conn2 (Some bob) (Some room_x) ann_in_x)).
Proof.
  refine (proj1 (join_history_recent_ascending_unicast (calm 2) conn2
                   (Some bob) (Some room_x) ann_in_x)
                bob room_x eq_refl eq_refl _ _ _);
    vm_compute; reflexivity.
Defined.

(* ================================================================== *)
(** ** Blank messages *)
(* ================================================================== *)

(** C4. A ['chat-message'] whose text is empty or only whitespace is a
    silent no-op: nothing is stored, nothing is emitted, the state is
    unchanged. *)
Theorem blank_chat_message_is_noop e socket s w :
  blank s ->
  chat_message e socket (Some s) w = mkRun (Done tt) w [].
Proof.
  intros Hb. rewrite chat_message_run.
  now rewrite (trim_or_empty_blank s Hb).
Qed.

Lemma blank_chat_message_is_noop_witness :
  chat_message (calm 5) conn1 (Some [32; 9; 160; 10]%N) ann_in_x =
  mkRun (Done tt) ann_in_x [].
Proof.
  apply (blank_chat_message_is_noop (calm 5) conn1 [32; 9; 160; 10]%N ann_in_x).
  repeat constructor.
Defined.

(* ================================================================== *)
(** ** Persistence failures *)
(* ================================================================== *)

(** C2, as stated, fails when the history query throws: the session and
    the enrollment of steps 1 and 2 are already in the shared state. *)
Lemma failed_history_fetch_keeps_session_counterexample :
  fault_Message_find history_down = true /\
  out (joinRoom history_down conn1 (Some ann) (Some room_x) opened) =
    [ SessionCreated (mkUser conn1 ann room_x 7);
      GroupJoined conn1 room_x;
      Emitted (ToSocket conn1) (join_failed_notice history_down) ] /\
  users (final (joinRoom history_down conn1 (Some ann) (Some room_x) opened)) =
    [mkUser conn1 ann room_x 7] /\
  rooms (final (joinRoom history_down conn1 (Some ann) (Some room_x) opened))
    !! room_x = Some {[conn1]} /\
  final (joinRoom history_down conn1 (Some ann) (Some room_x) opened)
    <> opened.
Proof.
  split; [reflexivity|]. split; [vm_compute; reflexivity|].
  split; [vm_compute; reflexivity|]. split.
  - vm_compute. reflexivity.
  - intros H. apply (f_equal users) in H. vm_compute in H. discriminate H.
Qed.

(** C2, amended.  When creating the session throws, a join unicasts the
    failure notice and changes nothing.  When the lookup or the save of a
    send throws, the send unicasts the failure notice and changes
    nothing.  When the history query of a join throws, the joiner gets
    the failure notice and nothing is addressed to the room, but the
    session and the enrollment made before the query stay. *)
Theorem persistence_failure_is_unicast_only e socket w :
  (forall u r err,
     truthy u = true -> truthy r = true ->
     res (User_create e socket u r w) = Threw err ->
     joinRoom e socket (Some u) (Some r) w =
       mkRun (Done tt) w [Emitted (ToSocket socket) (join_failed_notice e)])
  /\
  (forall text,
     truthy (trim (or_empty text)) = true ->
     fault_User_findOne e = true \/
     (fault_Message_create e = true /\
      exists u, List.find (has_socket socket) (users w) = Some u) ->
     chat_message e socket text w =
       mkRun (Done tt) w [Emitted (ToSocket socket) (send_failed_notice e)])
  /\
  (forall u r,
     truthy u = true -> truthy r = true ->
     res (User_create e socket u r w) = Done tt ->
     fault_Message_find e = true ->
     out (joinRoom e socket (Some u) (Some r) w) =
       [ SessionCreated (session_doc e socket u r);
         GroupJoined socket r;
         Emitted (ToSocket socket) (join_failed_notice e) ] /\
     existsb is_broadcast (out (joinRoom e socket (Some u) (Some r) w)) = false /\
     users (final (joinRoom e socket (Some u) (Some r) w)) =
       users w ++ [session_doc e socket u r] /\
     members (final (joinRoom e socket (Some u) (Some r) w)) r =
       {[socket]} ∪ members w r /\
     messages (final (joinRoom e socket (Some u) (Some r) w)) = messages w).
Proof.
  split; [|split].
  - intros u r err Hu Hr Hc. now apply joinRoom_create_threw with err.
  - intros text Ht Hfail. rewrite chat_message_run, Ht. cbn [negb].
    destruct Hfail as [Hl|[Hs [u Hu]]].
    + now rewrite Hl.
    + destruct (fault_User_findOne e); [reflexivity|]. rewrite Hu.
      unfold Message_create. rewrite Hs.
      destruct (negb _ || _ || _); reflexivity.
  - intros u r Hu Hr Hc Hf. rewrite joinRoom_history_threw by assumption.
    cbn [out final]. repeat split. apply members_joined_world.
Qed.

Lemma persistence_failure_is_unicast_only_witness :
  chat_message save_down conn1 (Some (lit "hi")) ann_in_x =
  mkRun (Done tt) ann_in_x [Emitted (ToSocket conn1) (send_failed_notice save_down)].
Proof.
  refine (proj1 (proj2 (persistence_failure_is_unicast_only save_down conn1 ann_in_x))
            (Some (lit "hi")) _ _).
  - vm_compute; reflexivity.
  - right. split; [reflexivity|]. eexists. vm_compute. reflexivity.
Defined.

(* ================================================================== *)
(** ** Invalid joins *)
(* ================================================================== *)

(** C5, as stated, fails for a whitespace-only room: the guard tests
    emptiness and the schema does not trim [room], so the join succeeds. *)
Lemma whitespace_room_is_accepted_counterexample :
  blank (lit " ") /\
  users (final (joinRoom (calm 1) conn1 (Some ann) (Some (lit " ")) opened)) =
    [mkUser conn1 ann (lit " ") 1] /\
  In (GroupJoined conn1 (lit " "))
     (out (joinRoom (calm 1) conn1 (Some ann) (Some (lit " ")) opened)) /\
  ~ In (Emitted (ToSocket conn1) (required_notice (calm 1)))
       (out (joinRoom (calm 1) conn1 (Some ann) (Some (lit " ")) opened)).
Proof.
  split; [repeat constructor|]. split; [vm_compute; reflexivity|]. split.
  - vm_compute. right. left. reflexivity.
  - intros H. vm_compute in H.
    repeat (destruct H as [H|H]; [discriminate H|]). exact H.
Qed.

(** C5, amended.  A join whose username or room is absent or the empty
    string gets the "required" notice; a join whose username is
    whitespace-only (and whose room is not empty) gets the generic
    failure notice.  In both cases the state is unchanged: no session, no
    enrollment. *)
Theorem invalid_join_is_rejected e socket username room w :
  (truthy_opt username = false \/ truthy_opt room = false ->
   joinRoom e socket username room w =
     mkRun (Done tt) w [Emitted (ToSocket socket) (required_notice e)])
  /\
  (forall u r,
     username = Some u -> room = Some r ->
     truthy u = true -> truthy r = true -> blank u ->
     joinRoom e socket username room w =
       mkRun (Done tt) w [Emitted (ToSocket socket) (join_failed_notice e)]).
Proof.
  split.
  - intros H. apply joinRoom_rejects.
    destruct H as [-> | ->]; [reflexivity|apply andb_false_r].
  - intros u r -> -> Hu Hr Hb.
    apply joinRoom_create_threw with ValidationError; try assumption.
    unfold User_create. cbn [u_username]. now rewrite (trim_blank u Hb).
Qed.

Lemma invalid_join_is_rejected_witness :
  joinRoom (calm 1) conn1 (Some (lit "  ")) (Some room_x) opened =
  mkRun (Done tt) opened
        [Emitted (ToSocket conn1) (join_failed_notice (calm 1))].
Proof.
  refine (proj2 (invalid_join_is_rejected (calm 1) conn1 (Some (lit "  "))
                   (Some room_x) opened)
                (lit "  ") room_x eq_refl eq_refl _ _ _).
  - reflexivity.
  - reflexivity.
  - repeat constructor.
Defined.

(* ================================================================== *)
(** ** A second join on a connection *)
(* ================================================================== *)

(** C6, as stated, fails: [socketId] is unique, so a second join on a
    connection that holds a session throws in [User.create]; the session
    is neither replaced nor re-inserted. *)
Lemma second_join_is_refused_counterexample :
  List.find (has_socket conn1) (users ann_in_x) = Some (mkUser conn1 ann room_x 1) /\
  out (joinRoom (calm 2) conn1 (Some bob) (Some room_y) ann_in_x) =
    [Emitted (ToSocket conn1) (join_failed_notice (calm 2))] /\
  List.find (has_socket conn1)
       (users (final (joinRoom (calm 2) conn1 (Some bob) (Some room_y) ann_in_x))) =
    Some (mkUser conn1 ann room_x 1).
Proof.
  repeat split; vm_compute; reflexivity.
Qed.

(** C6, amended.  On a connection that already holds a session, a join
    is refused: the connection gets a notice, the state is unchanged,
    and the connection still holds exactly its one, original session. *)
Theorem second_join_keeps_the_session e socket username room w u0 :
  reachable w ->
  List.find (has_socket socket) (users w) = Some u0 ->
  final (joinRoom e socket username room w) = w /\
  (out (joinRoom e socket username room w) =
     [Emitted (ToSocket socket) (required_notice e)] \/
   out (joinRoom e socket username room w) =
     [Emitted (ToSocket socket) (join_failed_notice e)]) /\
  List.filter (has_socket socket) (users (final (joinRoom e socket username room w))) =
    [u0].
Proof.
  intros Hreach Hfind.
  assert (Hex : existsb (has_socket socket) (users w) = true).
  { destruct (existsb (has_socket socket) (users w)) eqn:Hx; [reflexivity|].
    apply find_none_existsb in Hx. congruence. }
  assert (Hone : List.filter (has_socket socket) (users w) = [u0]).
  { apply registry_ok_one_session; [now apply reachable_registry_ok|exact Hfind]. }
  destruct (joinRoom_result e socket username room w)
    as [?|? ? ? ? ? ?|u r ? ? Hc ?|u r ? ? Hc ? ?|u r ? ? Hc ? ?];
    cbn [final out]; auto;
    apply User_create_done in Hc as (_ & _ & _ & _ & Hfresh); congruence.
Qed.

Lemma second_join_keeps_the_session_witness :
  final (joinRoom (calm 2) conn1 (Some bob) (Some room_y) ann_in_x) = ann_in_x /\
  (out (joinRoom (calm 2) conn1 (Some bob) (Some room_y) ann_in_x) =
     [Emitted (ToSocket conn1) (required_notice (calm 2))] \/
   out (joinRoom (calm 2) conn1 (Some bob) (Some room_y) ann_in_x) =
     [Emitted (ToSocket conn1) (join_failed_notice (calm 2))]) /\
  List.filter (has_socket conn1)
    (users (final (joinRoom (calm 2) conn1 (Some bob) (Some room_y) ann_in_x))) =
    [mkUser conn1 ann room_x 1].
Proof.
  refine (second_join_keeps_the_session (calm 2) conn1 (Some bob) (Some room_y)
            ann_in_x (mkUser conn1 ann room_x 1) ann_in_x_reachable _).
  vm_compute; reflexivity.
Defined.

(* ================================================================== *)
(** ** Sessions of reachable states *)
(* ================================================================== *)

Lemma reachable_session w socket u :
  reachable w -> List.find (has_socket socket) (users w) = Some u ->
  trim (u_username u) = u_username u /\
  truthy (u_username u) = true /\ truthy (u_room u) = true.
Proof.
  intros Hr Hf. apply reachable_registry_ok in Hr as [_ Hall].
  apply find_has_socket in Hf as [Hin _].
  rewrite List.Forall_forall in Hall. exact (Hall u Hin).
Qed.

Lemma Message_create_done e w u text :
  truthy (trim (u_username u)) = true -> truthy (u_room u) = true ->
  truthy text = true -> fault_Message_create e = false ->
  res (Message_create e (u_username u) (u_room u) text w) =
    Done (mkMessage (trim (u_username u)) (u_room u) text (now e)).
Proof.
  intros H1 H2 H3 H4. unfold Message_create. cbn [m_username].
  now rewrite H1, H2, H3, H4.
Qed.

(** A send by a registered session that the store serves. *)
Lemma chat_message_sends e socket text w u :
  reachable w -> List.find (has_socket socket) (users w) = Some u ->
  truthy (trim (or_empty text)) = true ->
  fault_User_findOne e = false -> fault_Message_create e = false ->
  chat_message e socket text w =
    mkRun (Done tt) (with_messages w (messages w ++ [stored_message (message_doc e u text)]))
          (send_effects e u text).
Proof.
  intros Hr Hf Ht Hl Hs.
  destruct (reachable_session w socket u Hr Hf) as (Htrim & Hname & Hroom).
  rewrite chat_message_run, Ht, Hl, Hf. cbn [negb].
  rewrite (Message_create_done e w u (trim (or_empty text)));
    [reflexivity|now rewrite Htrim|assumption..].
Qed.

(* ================================================================== *)
(** ** Sending while typing *)
(* ================================================================== *)

(** C7, as stated, fails: handling a ['chat-message'] of a user who was
    announced as typing emits the message broadcast and no stop-typing. *)
Lemma send_while_typing_emits_no_stop_counterexample :
  In (Emitted (ToRoomExcept room_x conn1) (TypingEv ann))
     (out (handle_all ann_typing empty_world)) /\
  existsb is_stop_typing (out (handle_all ann_typing empty_world)) = false /\
  out (chat_message (calm 4) conn1 (Some (lit "hi"))
         (final (handle_all ann_typing empty_world))) =
    [ MessageSaved (mkMessage ann room_x (lit "hi") 4);
      Emitted (ToRoom room_x) (MessageEv (mkLine ann (lit "hi") 4)) ].
Proof.
  split; [|split; vm_compute; reflexivity].
  vm_compute. repeat (first [left; reflexivity | right]).
Qed.

(** C7, amended.  The server's ['chat-message'] listener never emits a
    stop-typing.  The client's [sendMessage], when it has told the server
    that its user types, emits ['stopTyping'] and then ['chat-message'];
    the server, handling the two in this order with the store answering,
    broadcasts the stop-typing to the other occupants of the room and
    then the message to the whole room. *)
Theorem send_from_client_stops_typing_first e1 e2 socket w u c :
  reachable w ->
  List.find (has_socket socket) (users w) = Some u ->
  Client.hasToldServerTyping c = true ->
  truthy (trim (Client.msg c)) = true ->
  fault_User_findOne e1 = false -> fault_User_findOne e2 = false ->
  fault_Message_create e2 = false ->
  snd (Client.sendMessage c) =
    [StopTyping; ChatMessage (Some (trim (Client.msg c)))] /\
  out (handle_all (deliver socket [e1; e2] (snd (Client.sendMessage c))) w) =
    [ Emitted (ToRoomExcept (u_room u) socket) (StopTypingEv (u_username u));
      MessageSaved (mkMessage (u_username u) (u_room u) (trim (Client.msg c)) (now e2));
      Emitted (ToRoom (u_room u))
        (MessageEv (mkLine (u_username u) (trim (Client.msg c)) (now e2))) ] /\
  (forall e text w',
     existsb is_stop_typing (out (chat_message e socket text w')) = false).
Proof.
  intros Hr Hf Htold Ht Hl1 Hl2 Hs.
  assert (Hsend : snd (Client.sendMessage c) =
                  [StopTyping; ChatMessage (Some (trim (Client.msg c)))]).
  { unfold Client.sendMessage, Client.stopTyping. now rewrite Ht, Htold. }
  split; [exact Hsend|]. split.
  - rewrite Hsend. cbn [deliver List.combine List.map fst snd].
    rewrite handle_all_out_cons. cbn [handle].
    rewrite stopTyping_run, Hl1, Hf. cbn [out final].
    rewrite handle_all_out_cons. cbn [handle handle_all].
    assert (Htext : trim (or_empty (Some (trim (Client.msg c)))) = trim (Client.msg c)).
    { cbn [or_empty]. rewrite Ht. apply trim_idem. }
    rewrite (chat_message_sends e2 socket _ w u Hr Hf) by (now rewrite ?Htext).
    destruct (reachable_session w socket u Hr Hf) as (Htrim & _).
    unfold send_effects, message_doc, ret. rewrite Htext, Htrim.
    reflexivity.
  - intros e text w'. rewrite chat_message_run. repeat break_if; reflexivity.
Qed.

Lemma send_from_client_stops_typing_first_witness :
  out (handle_all
         (deliver conn1 [calm 4; calm 5]
            (snd (Client.sendMessage (Client.mkState (lit " hi ") true true))))
         (final (handle_all ann_typing empty_world))) =
    [ Emitted (ToRoomExcept room_x conn1) (StopTypingEv ann);
      MessageSaved (mkMessage ann room_x (lit "hi") 5);
      Emitted (ToRoom room_x) (MessageEv (mkLine ann (lit "hi") 5)) ].
Proof.
  refine (proj1 (proj2
            (send_from_client_stops_typing_first (calm 4) (calm 5) conn1
               (final (handle_all ann_typing empty_world))
               (mkUser conn1 ann room_x 1)
               (Client.mkState (lit " hi ") true true)
               (ex_intro _ ann_typing eq_refl) _ _ _ _ _ _)));
    vm_compute; reflexivity.
Defined.

(* ================================================================== *)
(** ** Join, then disconnect *)
(* ================================================================== *)

(** C8, as stated, fails in two ways.  A ['joinRoom'] with a valid
    payload on a connection that already holds a session is refused by
    the unique index, and the disconnect that follows deletes the
    session the connection held before: the room of that session loses
    an occupant.  And a disconnect whose delete the store does not serve
    only logs the error: the session the join created stays, and the
    room keeps an occupant more than before, although the connection has
    left every broadcast group. *)
Lemma join_then_disconnect_changes_occupants_counterexample :
  (truthy bob = true /\ truthy room_x = true /\
   occupants ann_in_x room_x = [ann] /\
   occupants (final (handle_all
                       [ (calm 2, conn1, JoinRoom (Some bob) (Some room_x));
                         (calm 3, conn1, Disconnect) ] ann_in_x)) room_x = [])
  /\
  (fault_User_findOneAndDelete delete_down = true /\
   res (joinRoom_body (calm 2) conn2 (Some bob) (Some room_x) ann_in_x) = Done tt /\
   occupants (final (handle_all
                       [ (calm 2, conn2, JoinRoom (Some bob) (Some room_x));
                         (delete_down, conn2, Disconnect) ] ann_in_x)) room_x
     = [ann; bob] /\
   members (final (handle_all
                     [ (calm 2, conn2, JoinRoom (Some bob) (Some room_x));
                       (delete_down, conn2, Disconnect) ] ann_in_x)) room_x
     = {[conn1]}).
Proof.
  repeat split; vm_compute; reflexivity.
Qed.

(** C8, amended.  When the join succeeds (its payload is valid, the
    connection holds no session yet and the store serves the join's
    calls) and the store serves the delete of the disconnect that
    follows on the same connection, each event being handled to
    completion before the next, the registry is what it was before the
    join, and so is the occupant list of every room: the join appends
    one session, the disconnect deletes that session. *)
Theorem join_then_disconnect_restores_occupants e1 e2 socket username room w :
  truthy username = true -> truthy room = true ->
  res (joinRoom_body e1 socket (Some username) (Some room) w) = Done tt ->
  fault_User_findOneAndDelete e2 = false ->
  users (final (handle e1 socket (JoinRoom (Some username) (Some room)) w)) =
    users w ++ [session_doc e1 socket username room] /\
  In (SessionDeleted (session_doc e1 socket username room))
     (out (handle e2 socket Disconnect
             (final (handle e1 socket (JoinRoom (Some username) (Some room)) w)))) /\
  users (final (handle_all
                  [ (e1, socket, JoinRoom (Some username) (Some room));
                    (e2, socket, Disconnect) ] w)) = users w /\
  (forall r,
     occupants (final (handle_all
                         [ (e1, socket, JoinRoom (Some username) (Some room));
                           (e2, socket, Disconnect) ] w)) r =
     occupants w r).
Proof.
  intros Hu Hr Hdone Hdel.
  destruct (joinRoom_body_done e1 socket username room w Hu Hr Hdone)
    as (Hc & Hf & Hg).
  pose proof (User_create_done _ _ _ _ _ Hc) as (_ & _ & _ & _ & Hfresh).
  apply find_none_existsb in Hfresh.
  assert (Hjoin : final (handle e1 socket (JoinRoom (Some username) (Some room)) w)
                  = joined_world e1 socket username room w).
  { cbn [handle]. now rewrite joinRoom_completes. }
  assert (Hfind : List.find (has_socket socket)
                    (users w ++ [session_doc e1 socket username room]) =
                  Some (session_doc e1 socket username room)).
  { now apply find_snoc. }
  assert (Hleave : forall w1,
            users w1 = users w ++ [session_doc e1 socket username room] ->
            users (final (handle e2 socket Disconnect w1)) = users w /\
            In (SessionDeleted (session_doc e1 socket username room))
               (out (handle e2 socket Disconnect w1))).
  { intros w1 Hw1. cbn [handle]. unfold bind, socket_leave_all.
    cbn [res final out app]. rewrite disconnect_run, Hdel.
    cbn [with_rooms users]. rewrite Hw1, Hfind.
    cbn [final out with_users users]. split; [|now left].
    now apply remove_first_snoc. }
  rewrite !handle_all_cons, Hjoin. cbn [handle_all ret final].
  destruct (Hleave (joined_world e1 socket username room w) eq_refl) as [Hback Hdeleted].
  repeat split; try assumption.
  intros r. unfold occupants. now rewrite Hback.
Qed.

Lemma join_then_disconnect_restores_occupants_witness :
  users (final (handle_all
                  [ (calm 2, conn2, JoinRoom (Some bob) (Some room_x));
                    (calm 3, conn2, Disconnect) ] ann_in_x)) = users ann_in_x.
Proof.
  refine (proj1 (proj2 (proj2
            (join_then_disconnect_restores_occupants (calm 2) (calm 3) conn2
               bob room_x ann_in_x _ _ _ _))));
    vm_compute; reflexivity.
Defined.

(* ================================================================== *)
(** ** Events of a connection without a session *)
(* ================================================================== *)

(** C9, as stated, fails for ['chat-message'] when the store does not
    answer the session lookup: the listener's [catch] unicasts
    'Failed to send message.' to the connection, session or not. *)
Lemma unknown_connection_lookup_failure_counterexample :
  List.find (has_socket conn2) (users ann_in_x) = None /\
  fault_User_findOne lookup_down = true /\
  chat_message lookup_down conn2 (Some (lit "hello")) ann_in_x =
    mkRun (Done tt) ann_in_x
          [Emitted (ToSocket conn2) (send_failed_notice lookup_down)] /\
  recipients ann_in_x (ToSocket conn2) = {[conn2]}.
Proof.
  repeat split; vm_compute; reflexivity.
Qed.

(** C9, amended.  On a connection with no session in the registry,
    ['typing'], ['stopTyping'] and ['disconnect'] do nothing at all,
    whatever the store does; a ['chat-message'] does nothing either when
    its text is blank or when the store answers the lookup: no state
    change, nothing stored, nothing emitted.  A ['chat-message'] with a
    text that is not blank whose lookup the store does not answer
    changes and stores nothing, but unicasts the failure notice to the
    connection. *)
Theorem unknown_connection_is_ignored e socket w :
  List.find (has_socket socket) (users w) = None ->
  typing e socket w = mkRun (Done tt) w [] /\
  stopTyping e socket w = mkRun (Done tt) w [] /\
  disconnect e socket w = mkRun (Done tt) w [] /\
  (fault_User_findOne e = false ->
   forall text, chat_message e socket text w = mkRun (Done tt) w []) /\
  (forall text, truthy (trim (or_empty text)) = false ->
     chat_message e socket text w = mkRun (Done tt) w []) /\
  (fault_User_findOne e = true ->
   forall text, truthy (trim (or_empty text)) = true ->
     chat_message e socket text w =
       mkRun (Done tt) w [Emitted (ToSocket socket) (send_failed_notice e)]).
Proof.
  intros Hnone. repeat split.
  - rewrite typing_run, Hnone. now destruct (fault_User_findOne e).
  - rewrite stopTyping_run, Hnone. now destruct (fault_User_findOne e).
  - rewrite disconnect_run, Hnone. now destruct (fault_User_findOneAndDelete e).
  - intros Hl text. rewrite chat_message_run, Hl, Hnone.
    now destruct (negb _).
  - intros text Hb. now rewrite chat_message_run, Hb.
  - intros Hl text Hb. now rewrite chat_message_run, Hb, Hl.
Qed.

Lemma unknown_connection_is_ignored_witness :
  chat_message (calm 9) conn2 (Some (lit "hello")) ann_in_x =
  mkRun (Done tt) ann_in_x [].
Proof.
  refine (proj1 (proj2 (proj2 (proj2
            (unknown_connection_is_ignored (calm 9) conn2 ann_in_x _))))
            _ (Some (lit "hello")));
    vm_compute; reflexivity.
Defined.

(* ================================================================== *)
(** ** Author and room of a chat message *)
(* ================================================================== *)

Lemma chat_message_authorships e socket text w u :
  List.find (has_socket socket) (users w) = Some u ->
  authorships (out (chat_message e socket text w)) = [] \/
  authorships (out (chat_message e socket text w)) =
    [(trim (u_username u), u_room u); (trim (u_username u), u_room u)].
Proof.
  intros Hf. rewrite chat_message_run, Hf.
  repeat break_if; cbn; auto.
Qed.

(** C10. On a connection whose session is [u], every message a
    ['chat-message'] stores or broadcasts carries the username and the
    room of [u], and the only room addressed is the room of [u]: two
    sends from the same session, whatever their texts, environments and
    states, agree on author and room.  The same holds for the typing
    signals.  A send the store serves does store and broadcast. *)
Theorem chat_author_and_room_come_from_session e socket text w u :
  List.find (has_socket socket) (users w) = Some u ->
  (forall p, In p (authorships (out (chat_message e socket text w))) ->
     p = (trim (u_username u), u_room u))
  /\
  (forall t ev,
     In (Emitted t ev) (out (chat_message e socket text w)) ->
     t = ToRoom (u_room u) \/ t = ToSocket socket)
  /\
  (forall e' text' w' p p',
     List.find (has_socket socket) (users w') = Some u ->
     In p (authorships (out (chat_message e socket text w))) ->
     In p' (authorships (out (chat_message e' socket text' w'))) ->
     p = p')
  /\
  (reachable w -> truthy (trim (or_empty text)) = true ->
   fault_User_findOne e = false -> fault_Message_create e = false ->
   trim (u_username u) = u_username u /\
   out (chat_message e socket text w) =
     [ MessageSaved (mkMessage (u_username u) (u_room u) (trim (or_empty text)) (now e));
       Emitted (ToRoom (u_room u))
         (MessageEv (mkLine (u_username u) (trim (or_empty text)) (now e))) ])
  /\
  (out (typing e socket w) = [] \/
   out (typing e socket w) =
     [Emitted (ToRoomExcept (u_room u) socket) (TypingEv (u_username u))])
  /\
  (out (stopTyping e socket w) = [] \/
   out (stopTyping e socket w) =
     [Emitted (ToRoomExcept (u_room u) socket) (StopTypingEv (u_username u))]).
Proof.
  intros Hf.
  assert (Hown : forall e0 text0 w0 p,
            List.find (has_socket socket) (users w0) = Some u ->
            In p (authorships (out (chat_message e0 socket text0 w0))) ->
            p = (trim (u_username u), u_room u)).
  { intros e0 text0 w0 p Hf0 Hin.
    destruct (chat_message_authorships e0 socket text0 w0 u Hf0) as [Ha|Ha];
      rewrite Ha in Hin; cbn [In] in Hin.
    - contradiction.
    - destruct Hin as [<-|[<-|[]]]; reflexivity. }
  split; [|split; [|split; [|split; [|split]]]].
  - intros p. now apply Hown.
  - intros t ev. rewrite chat_message_run, Hf.
    repeat break_if; cbn [out send_effects In]; intros Hin;
      repeat (destruct Hin as [Hin|Hin]; [try discriminate Hin|]);
      try contradiction; injection Hin as <- _; auto.
  - intros e' text' w' p p' Hf' Hp Hp'.
    rewrite (Hown e text w p Hf Hp). symmetry. now apply (Hown e' text' w').
  - intros Hr Ht Hl Hs.
    destruct (reachable_session w socket u Hr Hf) as (Htrim & _).
    split; [exact Htrim|].
    rewrite (chat_message_sends e socket text w u) by assumption.
    cbn [out]. unfold send_effects, message_doc. now rewrite Htrim.
  - rewrite typing_run, Hf. cbn [out]. destruct (fault_User_findOne e); auto.
  - rewrite stopTyping_run, Hf. cbn [out]. destruct (fault_User_findOne e); auto.
Qed.

Lemma chat_author_and_room_come_from_session_witness :
  trim ann = ann /\
  out (chat_message (calm 6) conn1 (Some (lit "hi")) ann_in_x) =
    [ MessageSaved (mkMessage ann room_x (lit "hi") 6);
      Emitted (ToRoom room_x) (MessageEv (mkLine ann (lit "hi") 6)) ].
Proof.
  refine (proj1 (proj2 (proj2 (proj2
            (chat_author_and_room_come_from_session (calm 6) conn1
               (Some (lit "hi")) ann_in_x (mkUser conn1 ann room_x 1) _))))
            ann_in_x_reachable _ _ _);
    vm_compute; reflexivity.
Defined.

(* ================================================================== *)
(** ** What each event does to the shared state *)
(* ================================================================== *)

Lemma chat_message_keeps_registry e socket text w :
  users (final (chat_message e socket text w)) = users w /\
  rooms (final (chat_message e socket text w)) = rooms w.
Proof. rewrite chat_message_run. repeat break_if; split; reflexivity. Qed.

Lemma Message_create_validated e username room text w d :
  res (Message_create e username room text w) = Done d ->
  d = mkMessage (trim username) room text (now e) /\
  truthy (trim username) = true /\ truthy room = true /\ truthy text = true.
Proof.
  unfold Message_create. cbn [m_username].
  destruct (negb (truthy (trim username)) || negb (truthy room) || negb (truthy text))
    eqn:Hv; cbn [res]; [discriminate|].
  destruct (fault_Message_create e); cbn [res]; [discriminate|].
  intros [= <-].
  apply orb_false_elim in Hv as [Hv H3]. apply orb_false_elim in Hv as [H1 H2].
  apply negb_false_iff in H1, H2, H3. auto.
Qed.

(** The log after a ['chat-message']: as before, or one document more. *)
Lemma chat_message_log e socket text w :
  messages (final (chat_message e socket text w)) = messages w \/
  exists u,
    List.find (has_socket socket) (users w) = Some u /\
    messages (final (chat_message e socket text w)) =
      messages w ++ [stored_message (message_doc e u text)] /\
    truthy (trim (or_empty text)) = true /\
    truthy (trim (u_username u)) = true /\ truthy (u_room u) = true.
Proof.
  rewrite chat_message_run.
  destruct (negb (truthy (trim (or_empty text)))) eqn:Ht; [now left|].
  destruct (fault_User_findOne e); [now left|].
  destruct (List.find (has_socket socket) (users w)) as [u|]; [|now left].
  destruct (res (Message_create e (u_username u) (u_room u)
                   (trim (or_empty text)) w)) as [d|err] eqn:Hc; [|now left].
  right. exists u. apply Message_create_validated in Hc as (_ & H1 & H2 & H3).
  cbn [final with_messages messages]. repeat split; assumption.
Qed.

Lemma joinRoom_keeps_log e socket username room w :
  messages (final (joinRoom e socket username room w)) = messages w.
Proof. destruct (joinRoom_result e socket username room w); reflexivity. Qed.

Lemma disconnect_keeps_log e socket w :
  messages (final (handle e socket Disconnect w)) = messages w.
Proof.
  cbn [handle]. unfold bind, socket_leave_all. cbn [res final out].
  rewrite disconnect_run. repeat break_if; reflexivity.
Qed.

Lemma members_after_leave sid w room :
  members (final (socket_leave_all sid w)) room = members w room ∖ {[sid]}.
Proof.
  unfold members, socket_leave_all. cbn [final with_rooms rooms].
  rewrite lookup_omap. destruct (rooms w !! room) as [s|]; cbn.
  - destruct (decide (s ∖ {[sid]} = ∅)) as [Hs|Hs]; cbn; [now rewrite Hs|reflexivity].
  - now rewrite empty_difference_L.
Qed.

Lemma members_joined_other e socket u r w room :
  room <> r -> members (joined_world e socket u r w) room = members w room.
Proof.
  intros Hne. unfold members. cbn [joined_world rooms].
  now rewrite lookup_insert_ne.
Qed.

Lemma remove_first_keeps socket us u :
  In u us -> has_socket socket u = false -> In u (remove_first socket us).
Proof.
  induction us as [|x r IH]; simpl; [tauto|].
  intros [->|Hin] Hu.
  - rewrite Hu. now left.
  - destruct (has_socket socket x); [exact Hin|]. right. now apply IH.
Qed.

Lemma members_connected socket w room :
  members (final (socket_connect socket w)) room =
  if decide (room = socket) then {[socket]} ∪ members w room else members w room.
Proof.
  unfold members at 1. cbn [socket_connect final with_rooms rooms].
  destruct (decide (room = socket)) as [->|Hne].
  - now rewrite lookup_insert_eq.
  - now rewrite lookup_insert_ne by congruence.
Qed.

Lemma handle_groups_ok e socket ev w :
  groups_ok w -> groups_ok (final (handle e socket ev w)).
Proof.
  intros Hok. destruct ev as [username room|text| | | |]; cbn [handle].
  - destruct (joinRoom_result e socket username room w)
      as [?|? ? ? ? ? ?|u r ? ? Hc ?|u r ? ? Hc ? ?|u r ? ? Hc ? ?];
      cbn [final]; try exact Hok;
      (intros room' sid Hin; cbn [joined_world users];
       destruct (decide (room' = r)) as [->|Hne];
       [ rewrite members_joined_world in Hin;
         apply elem_of_union in Hin as [Hin|Hin];
         [ apply elem_of_singleton in Hin as ->; right;
           exists (session_doc e socket u r); split;
           [apply in_or_app; right; now left|split; reflexivity]
         | destruct (Hok r sid Hin) as [->|(x & Hx & Hs & Hr)];
           [now left|right; exists x; split; [apply in_or_app; now left|auto]] ]
       | rewrite members_joined_other in Hin by exact Hne;
         destruct (Hok room' sid Hin) as [->|(x & Hx & Hs & Hr)];
         [now left|right; exists x; split; [apply in_or_app; now left|auto]] ]).
  - intros room sid Hin.
    destruct (chat_message_keeps_registry e socket text w) as [Hu Hr].
    unfold members in Hin. rewrite Hr in Hin. rewrite Hu. now apply Hok.
  - now rewrite typing_run.
  - now rewrite stopTyping_run.
  - intros room sid Hin.
    assert (Hm : members (final ((socket_leave_all socket;; disconnect e socket) w)) room
                 = members w room ∖ {[socket]}).
    { rewrite <- members_after_leave. unfold bind. cbn [res final out socket_leave_all].
      rewrite disconnect_run. repeat break_if; reflexivity. }
    rewrite Hm in Hin. apply elem_of_difference in Hin as [Hin Hne].
    rewrite elem_of_singleton in Hne.
    destruct (Hok room sid Hin) as [->|(x & Hx & Hs & Hr)]; [now left|].
    right. exists x. split; [|auto].
    unfold bind. cbn [res final out socket_leave_all].
    rewrite disconnect_run. repeat break_if; cbn [final with_users with_rooms users];
      try exact Hx.
    all: apply remove_first_keeps; [exact Hx|].
    all: unfold has_socket; apply eqb_neq; congruence.
  - intros room sid Hin. rewrite members_connected in Hin.
    destruct (decide (room = socket)) as [->|Hne]; [|now apply Hok].
    apply elem_of_union in Hin as [Hin|Hin]; [|now apply Hok].
    apply elem_of_singleton in Hin as ->. now left.
Qed.

Lemma handle_log_ok e socket ev w :
  log_ok (messages w) -> log_ok (messages (final (handle e socket ev w))).
Proof.
  intros Hok. destruct ev as [username room|text| | | |]; cbn [handle].
  - now rewrite joinRoom_keeps_log.
  - destruct (chat_message_log e socket text w) as [->|(u & _ & -> & Ht & Hn & Hr)];
      [exact Hok|].
    apply List.Forall_app. split; [exact Hok|].
    repeat constructor;
      cbn [stored_message message_doc m_text m_username m_room];
      rewrite ?stored_truthy; try assumption. apply stored_trim_stable.
  - now rewrite typing_run.
  - now rewrite stopTyping_run.
  - change (log_ok (messages (final (handle e socket Disconnect w)))).
    now rewrite disconnect_keeps_log.
  - exact Hok.
Qed.

Lemma reachable_step e socket ev w :
  reachable w -> reachable (final (handle e socket ev w)).
Proof.
  intros [evs ->]. exists (evs ++ [(e, socket, ev)]).
  generalize empty_world as w0.
  induction evs as [|[[e0 s0] ev0] rest IH]; intros w0.
  - cbn [app]. rewrite handle_all_cons. reflexivity.
  - cbn [app]. rewrite !handle_all_cons. apply IH.
Qed.

Lemma reachable_ind_inv (P : world -> Prop) :
  P empty_world ->
  (forall e socket ev w, P w -> P (final (handle e socket ev w))) ->
  forall w, reachable w -> P w.
Proof.
  intros H0 Hstep w [evs ->]. revert H0. generalize empty_world as w0.
  induction evs as [|[[e s] ev] rest IH]; intros w0 H0.
  - exact H0.
  - rewrite handle_all_cons. apply IH. now apply Hstep.
Qed.

(* ================================================================== *)
(** ** Invariants of the shared state *)
(* ================================================================== *)

Lemma no_session_no_filter socket us :
  List.find (has_socket socket) us = None ->
  List.filter (has_socket socket) us = [].
Proof.
  induction us as [|u r IH]; simpl; [reflexivity|].
  destruct (has_socket socket u); [discriminate|exact IH].
Qed.

(** In every state the server can reach, the registry holds at most one
    session per connection id, and every session has a trimmed,
    non-empty username and a non-empty room. *)
Theorem registry_invariant w :
  reachable w ->
  NoDup (List.map u_socketId (users w)) /\
  (forall socket, (length (List.filter (has_socket socket) (users w)) <= 1)%nat) /\
  (forall u, In u (users w) ->
     trim (u_username u) = u_username u /\ u_username u <> [] /\ u_room u <> []).
Proof.
  intros Hr. pose proof (reachable_registry_ok w Hr) as Hok.
  destruct Hok as [Hnd Hall] eqn:E. clear E. split; [exact Hnd|]. split.
  - intros socket.
    destruct (List.find (has_socket socket) (users w)) as [u|] eqn:Hf.
    + rewrite (registry_ok_one_session socket (users w) u);
        [simpl; lia|now split|exact Hf].
    + rewrite no_session_no_filter by exact Hf. simpl. lia.
  - intros u Hin. rewrite List.Forall_forall in Hall.
    destruct (Hall u Hin) as (H1 & H2 & H3).
    split; [exact H1|]. split; now apply truthy_true.
Qed.

Lemma registry_invariant_witness :
  NoDup (List.map u_socketId (users (final (handle_all ann_typing empty_world)))).
Proof.
  refine (proj1 (registry_invariant (final (handle_all ann_typing empty_world))
                   (ex_intro _ ann_typing eq_refl))).
Defined.

(** In every state the server can reach, every persisted message has a
    non-empty text with no whitespace at either end, a non-empty author
    and a non-empty room. *)
Theorem message_log_invariant w :
  reachable w ->
  forall m, In m (messages w) ->
    trim (m_text m) = m_text m /\ m_text m <> [] /\
    m_username m <> [] /\ m_room m <> [].
Proof.
  intros Hr.
  assert (Hok : log_ok (messages w)).
  { revert w Hr. apply reachable_ind_inv; [constructor|].
    intros e socket ev w. apply handle_log_ok. }
  intros m Hin. unfold log_ok in Hok. rewrite List.Forall_forall in Hok.
  destruct (Hok m Hin) as (H1 & H2 & H3 & H4).
  repeat split; try exact H1; now apply truthy_true.
Qed.

Lemma message_log_invariant_witness :
  trim (lit "hi") = lit "hi" /\ lit "hi" <> [] /\ ann <> [] /\ room_x <> [].
Proof.
  refine (message_log_invariant
            (final (handle_all
                      (ann_typing ++ [(calm 4, conn1, ChatMessage (Some (lit " hi ")))])
                      empty_world))
            (ex_intro _ _ eq_refl)
            (mkMessage ann room_x (lit "hi") 4) _).
  vm_compute. left. reflexivity.
Defined.

(** The message log is append-only: a ['chat-message'] adds at most one
    document at the end (the stored form of the session's trimmed
    username, of its room and of the trimmed text), and no other event
    touches the log, so system notices are never persisted. *)
Theorem message_log_append_only e socket ev w :
  match ev with
  | ChatMessage text =>
      messages (final (handle e socket ev w)) = messages w \/
      exists u,
        List.find (has_socket socket) (users w) = Some u /\
        messages (final (handle e socket ev w)) =
          messages w ++ [mkMessage (stored (trim (u_username u))) (stored (u_room u))
                                   (stored (trim (or_empty text))) (now e)]
  | _ => messages (final (handle e socket ev w)) = messages w
  end.
Proof.
  destruct ev as [username room|text| | | |].
  - apply joinRoom_keeps_log.
  - cbn [handle].
    destruct (chat_message_log e socket text w) as [H|(u & Hf & H & _)];
      [now left|right; eauto].
  - cbn [handle]. now rewrite typing_run.
  - cbn [handle]. now rewrite stopTyping_run.
  - apply disconnect_keeps_log.
  - reflexivity.
Qed.

(** In every state the server can reach, a socket is only in the room
    named after its own id, where Socket.IO puts it on connection, and
    in rooms for which it holds a session: nobody receives the
    broadcasts of another room without being registered in it. *)
Theorem group_members_hold_sessions w room sid :
  reachable w ->
  sid ∈ members w room ->
  room = sid \/
  exists u, In u (users w) /\ u_socketId u = sid /\ u_room u = stored room.
Proof.
  intros Hr. revert room sid.
  change (groups_ok w). revert w Hr. apply reachable_ind_inv.
  - intros room sid Hin. unfold members in Hin. cbn in Hin.
    rewrite lookup_empty in Hin. cbn in Hin. now apply not_elem_of_empty in Hin.
  - intros e socket ev w. apply handle_groups_ok.
Qed.

Lemma group_members_hold_sessions_witness :
  room_x = conn1 \/
  exists u, In u (users ann_in_x) /\ u_socketId u = conn1 /\
            u_room u = stored room_x.
Proof.
  refine (group_members_hold_sessions ann_in_x room_x conn1
            (ex_intro _ _ eq_refl) _).
  vm_compute. reflexivity.
Defined.

(* ================================================================== *)
(** ** Disconnect of a registered connection *)
(* ================================================================== *)

Lemma find_after_remove socket us :
  NoDup (List.map u_socketId us) ->
  List.find (has_socket socket) (remove_first socket us) = None.
Proof.
  intros Hnd. apply NoDup_ListNoDup in Hnd.
  induction us as [|x r IH]; simpl; [reflexivity|].
  inversion Hnd as [|? ? Hnot Hr]; subst.
  destruct (has_socket socket x) eqn:Hx.
  - apply find_none_existsb.
    destruct (existsb (has_socket socket) r) eqn:He; [|reflexivity].
    exfalso. apply Hnot. apply existsb_exists in He as (y & Hy & Hs).
    unfold has_socket in Hx, Hs. apply eqb_eq in Hx, Hs.
    rewrite Hx, <- Hs. now apply in_map.
  - simpl. rewrite Hx. now apply IH.
Qed.

Lemma handle_disconnect_run e socket w :
  handle e socket Disconnect w =
  mkRun (Done tt)
        (final (disconnect e socket (final (socket_leave_all socket w))))
        (out (disconnect e socket (final (socket_leave_all socket w)))).
Proof.
  cbn [handle]. unfold bind. cbn [socket_leave_all res final out app].
  rewrite disconnect_run. repeat break_if; reflexivity.
Qed.

Lemma members_after_disconnect e socket w room :
  members (final (handle e socket Disconnect w)) room = members w room ∖ {[socket]}.
Proof.
  rewrite handle_disconnect_run. cbn [final].
  rewrite <- members_after_leave. rewrite disconnect_run.
  repeat break_if; reflexivity.
Qed.

(** When a connection that holds session [u] disconnects and the store
    serves the delete, the session is deleted, then the room of [u] is
    sent the "left" notice, then the roster without [u].  Afterwards
    the connection holds no session and is in no group, so it receives
    neither emission; every other session stays. *)
Theorem disconnect_announces_and_removes e socket w u :
  reachable w ->
  List.find (has_socket socket) (users w) = Some u ->
  fault_User_findOneAndDelete e = false ->
  out (handle e socket Disconnect w) =
    SessionDeleted u
    :: Emitted (ToRoom (u_room u)) (left_notice e (u_username u))
    :: (if fault_User_find e then []
        else [Emitted (ToRoom (u_room u))
                (RoomUsersEv (occupants (final (handle e socket Disconnect w))
                                        (u_room u)))]) /\
  users (final (handle e socket Disconnect w)) = remove_first socket (users w) /\
  List.find (has_socket socket) (users (final (handle e socket Disconnect w))) = None /\
  (forall x, In x (users w) -> u_socketId x <> socket ->
     In x (users (final (handle e socket Disconnect w)))) /\
  (forall room, socket ∉ members (final (handle e socket Disconnect w)) room) /\
  delivered (handle e socket Disconnect w) socket = [].
Proof.
  intros Hr Hf Hdel.
  assert (Hrun : handle e socket Disconnect w =
    mkRun (Done tt)
      (with_users (final (socket_leave_all socket w)) (remove_first socket (users w)))
      (SessionDeleted u
       :: Emitted (ToRoom (u_room u)) (left_notice e (u_username u))
       :: (if fault_User_find e then []
           else [Emitted (ToRoom (u_room u))
                   (RoomUsersEv
                      (occupants
                         (with_users (final (socket_leave_all socket w))
                                     (remove_first socket (users w)))
                         (u_room u)))]))).
  { rewrite handle_disconnect_run, disconnect_run, Hdel.
    cbn [socket_leave_all final with_rooms users]. rewrite Hf. reflexivity. }
  assert (Hout : forall room,
            socket ∉ members (final (handle e socket Disconnect w)) room).
  { intros room. rewrite members_after_disconnect.
    rewrite elem_of_difference, elem_of_singleton. tauto. }
  split; [|split; [|split; [|split; [|split]]]].
  - rewrite Hrun at 1. cbn [out]. rewrite Hrun. reflexivity.
  - rewrite Hrun. reflexivity.
  - rewrite Hrun. cbn [final with_users users].
    apply find_after_remove. now apply reachable_registry_ok.
  - intros x Hx Hne. rewrite Hrun. cbn [final with_users users].
    apply remove_first_keeps; [exact Hx|].
    unfold has_socket. now apply eqb_neq.
  - exact Hout.
  - unfold delivered. rewrite Hrun in Hout |- *. cbn [out final] in Hout |- *.
    destruct (fault_User_find e); cbn [List.flat_map app recipients];
      rewrite !bool_decide_eq_false_2 by apply Hout; reflexivity.
Qed.

Lemma disconnect_announces_and_removes_witness :
  List.find (has_socket conn1)
    (users (final (handle (calm 9) conn1 Disconnect
                     (final (handle_all ann_typing empty_world))))) = None.
Proof.
  refine (proj1 (proj2 (proj2
            (disconnect_announces_and_removes (calm 9) conn1
               (final (handle_all ann_typing empty_world))
               (mkUser conn1 ann room_x 1)
               (ex_intro _ ann_typing eq_refl) _ _))));
    vm_compute; reflexivity.
Defined.

(* ================================================================== *)
(** ** When a join goes through, and what the room then sees *)
(* ================================================================== *)

Lemma User_create_done_iff e socket username room w :
  res (User_create e socket username room w) = Done tt <->
  trim username <> [] /\ room <> [] /\ socket <> [] /\
  List.find (has_socket socket) (users w) = None /\
  fault_User_create e = false.
Proof.
  split.
  - intros Hc. pose proof (User_create_done _ _ _ _ _ Hc) as (_ & H1 & H2 & H3 & H4).
    rewrite !truthy_true in *. rewrite find_none_existsb.
    repeat split; try assumption.
    revert Hc. unfold User_create.
    destruct (negb _ || _ || _); [discriminate|].
    destruct (fault_User_create e); [discriminate|reflexivity].
  - intros (H1 & H2 & H3 & H4 & H5). rewrite <- truthy_true in *.
    apply find_none_existsb in H4.
    unfold User_create. cbn [u_username]. now rewrite H1, H2, H3, H5, H4.
Qed.

Lemma trim_nonempty_truthy (s : jsstring) : trim s <> [] -> truthy s = true.
Proof. destruct s; [intros H; now elim H|reflexivity]. Qed.

(** The roster of a room is emitted at the end of a join (its last
    step) exactly when: the trimmed username, the room and the socket id
    are not empty, the connection holds no session yet, and none of the
    three store calls of the listener fails. *)
Theorem join_reaches_roster_iff e socket username room w :
  (exists names,
     In (Emitted (ToRoom room) (RoomUsersEv names))
        (out (joinRoom e socket (Some username) (Some room) w)))
  <->
  trim username <> [] /\ room <> [] /\ socket <> [] /\
  List.find (has_socket socket) (users w) = None /\
  fault_User_create e = false /\ fault_Message_find e = false /\
  fault_User_find e = false.
Proof.
  split.
  - intros [names Hin].
    destruct (joinRoom_result e socket (Some username) (Some room) w)
      as [?|? ? ? ? ? ?|u r ? ? Hc ?|u r ? ? Hc ? ?|u r Hu Hr Hc Hf Hg];
      cbn [out join_effects In] in Hin;
      repeat (destruct Hin as [Hin|Hin]; [try discriminate Hin|]);
      try contradiction.
    injection Hu as <-. injection Hr as <-.
    apply User_create_done_iff in Hc as (H1 & H2 & H3 & H4 & H5). auto 10.
  - intros (H1 & H2 & H3 & H4 & H5 & H6 & H7).
    rewrite joinRoom_completes; try assumption.
    + eexists. cbn [out join_effects In]. do 5 right. left. reflexivity.
    + now apply trim_nonempty_truthy.
    + now apply truthy_true.
    + apply User_create_done_iff. auto.
Qed.





(* ================================================================== *)
(** ** Who receives a chat message and the typing signals *)
(* ================================================================== *)

Lemma chat_message_reaches_the_room_aux e socket text w u sid :
  reachable w ->
  List.find (has_socket socket) (users w) = Some u ->
  truthy (trim (or_empty text)) = true ->
  fault_User_findOne e = false -> fault_Message_create e = false ->
  delivered (chat_message e socket text w) sid =
    if bool_decide (sid ∈ members w (u_room u))
    then [MessageEv (mkLine (u_username u) (trim (or_empty text)) (now e))]
    else [].
Proof.
  intros Hr Hf Ht Hl Hs.
  destruct (reachable_session w socket u Hr Hf) as (Htrim & _).
  unfold delivered. rewrite (chat_message_sends e socket text w u) by assumption.
  cbn [out final send_effects List.flat_map app recipients]. rewrite Htrim.
  change (members (with_messages w (messages w ++ [stored_message (message_doc e u text)])) (u_room u))
    with (members w (u_room u)).
  now destruct (bool_decide (sid ∈ members w (u_room u))).
Qed.

(** A ['chat-message'] of a registered session that the store serves is
    delivered to exactly the sockets in the group of the session's room,
    the sender included when it is in the group. *)
Theorem chat_message_reaches_the_room e socket text w u sid :
  reachable w ->
  List.find (has_socket socket) (users w) = Some u ->
  truthy (trim (or_empty text)) = true ->
  fault_User_findOne e = false -> fault_Message_create e = false ->
  delivered (chat_message e socket text w) sid =
    if bool_decide (sid ∈ members w (u_room u))
    then [MessageEv (mkLine (u_username u) (trim (or_empty text)) (now e))]
    else [].
Proof. apply chat_message_reaches_the_room_aux. Qed.

Lemma chat_message_reaches_the_room_witness :
  delivered (chat_message (calm 6) conn1 (Some (lit "hi")) ann_in_x) conn1 =
    if bool_decide (conn1 ∈ members ann_in_x (u_room (mkUser conn1 ann room_x 1)))
    then [MessageEv (mkLine (u_username (mkUser conn1 ann room_x 1))
                            (trim (or_empty (Some (lit "hi")))) (now (calm 6)))]
    else [].
Proof.
  refine (chat_message_reaches_the_room (calm 6) conn1 (Some (lit "hi")) ann_in_x
            (mkUser conn1 ann room_x 1) conn1 ann_in_x_reachable _ _ _ _);
    vm_compute; reflexivity.
Defined.

(** A user who has just joined gets its own message back: after a join
    that succeeds into a room whose name is well formed (the store keeps
    it as it is), a non-blank ['chat-message'] on the same connection,
    served by the store, is delivered to that connection, with the
    stored username and the trimmed text. *)
Theorem joiner_receives_own_message e1 e2 socket username room text w :
  reachable w ->
  truthy username = true -> truthy room = true -> stored room = room ->
  res (joinRoom_body e1 socket (Some username) (Some room) w) = Done tt ->
  truthy (trim (or_empty text)) = true ->
  fault_User_findOne e2 = false -> fault_Message_create e2 = false ->
  delivered
    (chat_message e2 socket text
       (final (joinRoom e1 socket (Some username) (Some room) w)))
    socket =
  [MessageEv (mkLine (stored (trim username)) (trim (or_empty text)) (now e2))].
Proof.
  intros Hr Hu Hrm Hwf Hdone Ht Hl Hs.
  destruct (joinRoom_body_done e1 socket username room w Hu Hrm Hdone) as (Hc & Hf & Hg).
  assert (Hr1 : reachable (final (joinRoom e1 socket (Some username) (Some room) w))).
  { exact (reachable_step e1 socket (JoinRoom (Some username) (Some room)) w Hr). }
  pose proof (User_create_done _ _ _ _ _ Hc) as (_ & _ & _ & _ & Hfresh).
  apply find_none_existsb in Hfresh.
  rewrite joinRoom_completes in Hr1 |- * by assumption. cbn [final] in Hr1 |- *.
  rewrite (chat_message_reaches_the_room_aux e2 socket text
             (joined_world e1 socket username room w)
             (session_doc e1 socket username room)); try assumption.
  - cbn [session_doc u_room u_username]. rewrite Hwf, members_joined_world.
    rewrite bool_decide_eq_true_2; [reflexivity|].
    apply elem_of_union_l. now apply elem_of_singleton.
  - cbn [joined_world users]. now apply find_snoc.
Qed.

Lemma joiner_receives_own_message_witness :
  delivered
    (chat_message (calm 3) conn2 (Some (lit " yo "))
       (final (joinRoom (calm 2) conn2 (Some bob) (Some room_x) ann_in_x)))
    conn2 =
  [MessageEv (mkLine (stored (trim bob)) (trim (or_empty (Some (lit " yo "))))
                     (now (calm 3)))].
Proof.
  refine (joiner_receives_own_message (calm 2) (calm 3) conn2 bob room_x
            (Some (lit " yo ")) ann_in_x ann_in_x_reachable _ _ _ _ _ _ _);
    vm_compute; reflexivity.
Defined.



(* ================================================================== *)
(** ** What the history contains *)
(* ================================================================== *)

Lemma history_members w r m :
  In m (history_of w r) -> In m (messages w) /\ m_room m = stored r.
Proof.
  intros Hin. unfold history_of in Hin. apply in_rev in Hin.
  assert (Hs : In m (sort_desc (room_messages w r))).
  { revert Hin. generalize (sort_desc (room_messages w r)) HISTORY_LIMIT.
    intros l n. revert l. induction n as [|n IH]; intros [|x l]; simpl; try tauto.
    intros [->|H]; [now left|right; now apply IH]. }
  apply (Permutation_in _ (sort_desc_perm _)) in Hs.
  unfold room_messages in Hs. apply filter_In in Hs as [H1 H2].
  split; [exact H1|]. unfold message_in_room in H2. now apply eqb_eq.
Qed.

Lemma history_complete w r m :
  (length (room_messages w r) <= 50)%nat ->
  In m (messages w) -> m_room m = stored r -> In m (history_of w r).
Proof.
  intros Hlen Hin Hr. unfold history_of, HISTORY_LIMIT. apply -> in_rev.
  rewrite firstn_all2
    by (rewrite (Permutation_length (sort_desc_perm _)); exact Hlen).
  apply (Permutation_in _ (Permutation_sym (sort_desc_perm _))).
  unfold room_messages. apply filter_In. split; [exact Hin|].
  unfold message_in_room. now apply eqb_eq.
Qed.

(** Whatever history a join sends, it holds only persisted messages of
    the room joined (those stored under the stored form of its name),
    none of another room; and when the room has at most 50 messages it
    holds them all. *)
Theorem join_history_is_of_that_room e socket username room w t h :
  In (Emitted t (MessageHistoryEv h)) (out (joinRoom e socket username room w)) ->
  exists r,
    room = Some r /\
    (forall m, In m h -> In m (messages w) /\ m_room m = stored r) /\
    ((length (room_messages w r) <= 50)%nat ->
     forall m, In m (messages w) -> m_room m = stored r -> In m h).
Proof.
  destruct (joinRoom_result e socket username room w)
    as [?|? ? ? ? ? ?|u r0 ? ? Hc ?|u r0 ? Hroom Hc ? ?|u r0 ? Hroom Hc ? ?];
    cbn [out join_effects In]; intros Hin;
    repeat (destruct Hin as [Hin|Hin]; [try discriminate Hin|]);
    try contradiction;
    injection Hin as _ <-; exists r0; (split; [exact Hroom|]);
    (split; [intros m; apply history_members|intros Hlen m; now apply history_complete]).
Qed.

Lemma join_history_is_of_that_room_witness :
  exists r,
    Some room_x = Some r /\
    (forall m, In m (history_of ann_in_x room_x) ->
       In m (messages ann_in_x) /\ m_room m = stored r) /\
    ((length (room_messages ann_in_x r) <= 50)%nat ->
     forall m, In m (messages ann_in_x) -> m_room m = stored r ->
       In m (history_of ann_in_x room_x)).
Proof.
  refine (join_history_is_of_that_room (calm 2) conn2 (Some bob) (Some room_x)
            ann_in_x (ToSocket conn2) (history_of ann_in_x room_x) _).
  vm_compute. right. right. left. reflexivity.
Defined.

Lemma filter_room_snoc r ms m :
  m_room m = stored r ->
  List.filter (message_in_room r) (ms ++ [m]) =
  List.filter (message_in_room r) ms ++ [m].
Proof.
  intros Hr. rewrite List.filter_app. cbn [List.filter].
  unfold message_in_room at 2. now rewrite Hr, eqb_refl.
Qed.

Lemma sort_desc_newest l m :
  (forall x, In x l -> m_createdAt x < m_createdAt m) ->
  sort_desc (l ++ [m]) = m :: sort_desc l.
Proof.
  unfold sort_desc. induction l as [|x r IH]; intros Hlt; [reflexivity|].
  cbn [app List.fold_right]. rewrite IH by (intros y Hy; apply Hlt; now right).
  cbn [insert_desc].
  destruct (m_createdAt m <=? m_createdAt x) eqn:Hc; [|reflexivity].
  apply Z.leb_le in Hc. specialize (Hlt x (or_introl eq_refl)). lia.
Qed.

Lemma handle_registry_stored e socket ev w :
  registry_stored (users w) -> registry_stored (users (final (handle e socket ev w))).
Proof.
  intros Hok. destruct ev as [username room|text| | | |]; cbn [handle].
  - destruct (joinRoom_result e socket username room w);
      cbn [final joined_world users]; try exact Hok;
      (apply List.Forall_app; split; [exact Hok|]; repeat constructor;
       cbn [session_doc u_username u_room]; apply stored_idem).
  - destruct (chat_message_keeps_registry e socket text w) as [-> _]. exact Hok.
  - now rewrite typing_run.
  - now rewrite stopTyping_run.
  - change ((socket_leave_all socket;; disconnect e socket) w)
      with (handle e socket Disconnect w).
    rewrite handle_disconnect_run, disconnect_run.
    repeat break_if; cbn [final with_users with_rooms users socket_leave_all];
      try exact Hok;
      (unfold registry_stored in *; rewrite List.Forall_forall in Hok |- *;
       intros x Hx; apply Hok; eapply remove_first_subset; eauto).
  - exact Hok.
Qed.

Lemma reachable_session_stored w socket u :
  reachable w -> List.find (has_socket socket) (users w) = Some u ->
  stored (u_username u) = u_username u /\ stored (u_room u) = u_room u.
Proof.
  intros Hr Hf.
  assert (Hok : registry_stored (users w)).
  { clear Hf. revert w Hr. apply reachable_ind_inv; [constructor|].
    intros e s ev w. apply handle_registry_stored. }
  apply find_has_socket in Hf as [Hin _].
  unfold registry_stored in Hok. rewrite List.Forall_forall in Hok.
  exact (Hok u Hin).
Qed.

(** A message that was sent is the last entry of the history the next
    joiner of that room receives, when its timestamp is later than those
    of the room's earlier messages; it holds the stored form of the
    trimmed text. *)
Theorem sent_message_closes_next_history
    e e2 socket socket2 text username2 w u :
  reachable w ->
  List.find (has_socket socket) (users w) = Some u ->
  truthy (trim (or_empty text)) = true ->
  fault_User_findOne e = false -> fault_Message_create e = false ->
  (forall x, In x (room_messages w (u_room u)) -> m_createdAt x < now e) ->
  truthy username2 = true ->
  res (joinRoom_body e2 socket2 (Some username2) (Some (u_room u))
         (final (chat_message e socket text w))) = Done tt ->
  exists earlier,
    In (Emitted (ToSocket socket2)
          (MessageHistoryEv
             (earlier ++ [mkMessage (u_username u) (u_room u)
                                    (stored (trim (or_empty text))) (now e)])))
       (out (joinRoom e2 socket2 (Some username2) (Some (u_room u))
               (final (chat_message e socket text w)))).
Proof.
  intros Hr Hf Ht Hl Hs Hnew Hu2 Hdone.
  destruct (reachable_session w socket u Hr Hf) as (Htrim & _ & Hroom).
  destruct (reachable_session_stored w socket u Hr Hf) as (Hsn & Hsr).
  destruct (joinRoom_body_done _ _ _ _ _ Hu2 Hroom Hdone) as (Hc & Hf2 & Hg2).
  rewrite joinRoom_completes by assumption.
  rewrite (chat_message_sends e socket text w u) by assumption.
  cbn [final out join_effects].
  exists (rev (take 49 (sort_desc (room_messages w (u_room u))))).
  right. right. left. do 2 f_equal.
  unfold history_of, room_messages, HISTORY_LIMIT. cbn [with_messages messages].
  rewrite filter_room_snoc by reflexivity.
  rewrite sort_desc_newest.
  - unfold stored_message, message_doc.
    cbn [m_username m_room m_text m_createdAt]. now rewrite Htrim, Hsn, Hsr.
  - exact Hnew.
Qed.

Lemma sent_message_closes_next_history_witness :
  exists earlier,
    In (Emitted (ToSocket conn2)
          (MessageHistoryEv
             (earlier ++ [mkMessage ann room_x
                                    (stored (trim (or_empty (Some (lit "hi"))))) 6])))
       (out (joinRoom (calm 7) conn2 (Some bob) (Some room_x)
               (final (chat_message (calm 6) conn1 (Some (lit "hi")) ann_in_x)))).
Proof.
  refine (sent_message_closes_next_history (calm 6) (calm 7) conn1 conn2
            (Some (lit "hi")) bob ann_in_x (mkUser conn1 ann room_x 1)
            ann_in_x_reachable _ _ _ _ _ _ _);
    try (vm_compute; reflexivity).
  intros x Hx. vm_compute in Hx. contradiction.
Defined.

(* ================================================================== *)
(** ** The composer: when the page signals typing *)
(* ================================================================== *)

Lemma signals_app told a b :
  signals told (a ++ b) =
  match signals told a with Some t => signals t b | None => None end.
Proof.
  revert told. induction a as [|ev a IH]; intros told; [reflexivity|].
  destruct ev, told; cbn [app signals]; auto.
Qed.

Lemma act_signals a s :
  signals (Client.hasToldServerTyping s) (snd (Page.act a s)) =
  Some (Client.hasToldServerTyping (fst (Page.act a s))).
Proof.
  destruct s as [m told timer].
  destruct a as [val| | |]; cbn [Page.act Client.hasToldServerTyping Client.typingTimeout].
  - unfold Client.onChangeMsg, Client.startTyping, Client.stopTyping.
    cbn [Client.hasToldServerTyping Client.msg Client.typingTimeout].
    destruct (0 <? length (trim val))%nat, told; reflexivity.
  - unfold Client.stopTyping. destruct told; reflexivity.
  - unfold Client.sendMessage, Client.stopTyping.
    cbn [Client.hasToldServerTyping Client.msg Client.typingTimeout].
    destruct (negb (truthy (trim m))), told; reflexivity.
  - unfold Client.stopTyping. destruct timer, told; reflexivity.
Qed.

Lemma acts_cons a l s :
  Page.acts (a :: l) s =
  (fst (Page.acts l (fst (Page.act a s))),
   snd (Page.act a s) ++ snd (Page.acts l (fst (Page.act a s)))).
Proof.
  cbn [Page.acts]. destruct (Page.act a s) as [s1 o1]. cbn [fst snd].
  destruct (Page.acts l s1) as [s2 o2]. reflexivity.
Qed.

Lemma signals_alternate_aux l s :
  signals (Client.hasToldServerTyping s) (snd (Page.acts l s)) =
  Some (Client.hasToldServerTyping (fst (Page.acts l s))).
Proof.
  revert s. induction l as [|a l IH]; intros s; [reflexivity|].
  rewrite acts_cons. cbn [fst snd].
  now rewrite signals_app, act_signals, IH.
Qed.

(** Whatever the user does, the typing signals a page emits alternate:
    never ['typing'] twice without a ['stopTyping'] between, never a
    ['stopTyping'] that no ['typing'] opened, and every ['chat-message']
    goes out with the flag down.  The page's flag is the state of that
    alternation. *)
Theorem page_typing_signals_alternate l s :
  signals (Client.hasToldServerTyping s) (snd (Page.acts l s)) =
  Some (Client.hasToldServerTyping (fst (Page.acts l s))).
Proof. apply signals_alternate_aux. Qed.

Lemma act_composing a s : composing s -> composing (fst (Page.act a s)).
Proof.
  destruct s as [m told timer]. unfold composing.
  cbn [Client.hasToldServerTyping Client.typingTimeout Client.msg].
  intros [Ht Hm].
  destruct a as [val| | |]; cbn [Page.act Client.typingTimeout].
  - unfold Client.onChangeMsg, Client.startTyping, Client.stopTyping.
    cbn [Client.hasToldServerTyping Client.msg Client.typingTimeout].
    destruct (0 <? length (trim val))%nat eqn:Hv; cbn; split; auto;
      try discriminate.
    intros _ Hnil. rewrite Hnil in Hv. discriminate Hv.
  - cbn. split; [reflexivity|discriminate].
  - unfold Client.sendMessage, Client.stopTyping.
    cbn [Client.hasToldServerTyping Client.msg Client.typingTimeout].
    destruct (negb (truthy (trim m))); cbn; split; auto; discriminate.
  - destruct timer; cbn; split; auto; try discriminate.
Qed.

(** From the mount on, whatever the user does, the idle timer is armed
    exactly while the page has told the server that its user types, and
    then the composer holds text that is not blank. *)
Theorem page_typing_flag_means_text l :
  Client.typingTimeout (fst (Page.acts l Page.fresh)) =
    Client.hasToldServerTyping (fst (Page.acts l Page.fresh)) /\
  (Client.hasToldServerTyping (fst (Page.acts l Page.fresh)) = true ->
   ~ blank (Client.msg (fst (Page.acts l Page.fresh)))).
Proof.
  assert (H : forall s, composing s -> composing (fst (Page.acts l s))).
  { induction l as [|a l IH]; intros s Hs; [exact Hs|].
    rewrite acts_cons. cbn [fst]. apply IH. now apply act_composing. }
  destruct (H Page.fresh) as [H1 H2].
  { split; [reflexivity|discriminate]. }
  split; [exact H1|]. intros Ht Hb. apply (H2 Ht). now apply trim_blank.
Qed.

Lemma page_typing_flag_means_text_witness :
  ~ blank (Client.msg (fst (Page.acts [Page.Change (lit "a")] Page.fresh))).
Proof.
  refine (proj2 (page_typing_flag_means_text [Page.Change (lit "a")]) _).
  vm_compute; reflexivity.
Defined.

(** Submitting a blank composer does nothing.  Otherwise the page emits
    ['stopTyping'] if its flag was up and then one ['chat-message'] whose
    text is the trimmed composer value, clears the composer and drops the
    flag; that text is not empty, and it is the text the server keeps
    after its own trimming. *)
Theorem sendMessage_sends_trimmed_text c :
  (blank (Client.msg c) -> Client.sendMessage c = (c, [])) /\
  (~ blank (Client.msg c) ->
   Client.sendMessage c =
     (Client.mkState [] false false,
      (if Client.hasToldServerTyping c then [StopTyping] else [])
        ++ [ChatMessage (Some (trim (Client.msg c)))])) /\
  (forall text, In (ChatMessage text) (snd (Client.sendMessage c)) ->
     text = Some (trim (Client.msg c)) /\ trim (Client.msg c) <> [] /\
     trim (or_empty text) = trim (Client.msg c)).
Proof.
  unfold Client.sendMessage, Client.stopTyping.
  cbn [Client.hasToldServerTyping Client.msg Client.typingTimeout].
  destruct (truthy (trim (Client.msg c))) eqn:Ht; cbn [negb].
  - apply truthy_true in Ht. split; [|split].
    + intros Hb. apply trim_blank in Hb. contradiction.
    + reflexivity.
    + cbn [snd]. intros text Hin. apply in_app_or in Hin as [Hin|Hin].
      * destruct (Client.hasToldServerTyping c); cbn [In] in Hin;
          [destruct Hin as [Hin|[]]; discriminate Hin|contradiction].
      * destruct Hin as [[= <-]|[]]. split; [reflexivity|]. split; [exact Ht|].
        cbn [or_empty]. rewrite (proj2 (truthy_true _) Ht). apply trim_idem.
  - apply truthy_false in Ht. split; [reflexivity|]. split.
    + intros Hb. elim Hb. now apply trim_nil_iff.
    + intros text [].
Qed.

Lemma sendMessage_sends_trimmed_text_witness :
  Client.sendMessage (Client.mkState (lit " hi ") true true) =
    (Client.mkState [] false false,
     (if Client.hasToldServerTyping (Client.mkState (lit " hi ") true true)
      then [StopTyping] else [])
       ++ [ChatMessage (Some (trim (Client.msg (Client.mkState (lit " hi ") true true))))]).
Proof.
  refine (proj1 (proj2 (sendMessage_sends_trimmed_text
                          (Client.mkState (lit " hi ") true true))) _).
  intros Hb. apply trim_blank in Hb. vm_compute in Hb. discriminate Hb.
Defined.

(* ================================================================== *)
(** ** The page's set of typing users and its rendering *)
(* ================================================================== *)

Lemma set_delete_absent who l : ~ In who l -> Page.set_delete who l = l.
Proof.
  unfold Page.set_delete. induction l as [|x r IH]; intros Hn; [reflexivity|].
  cbn [List.filter].
  assert (Hx : eqb x who = false).
  { apply eqb_neq. intros ->. apply Hn. now left. }
  rewrite Hx. cbn [negb]. f_equal. apply IH. intros H. apply Hn. now right.
Qed.

Lemma set_delete_in who x l : In x (Page.set_delete who l) <-> In x l /\ x <> who.
Proof.
  unfold Page.set_delete. rewrite filter_In, negb_true_iff. unfold Js.eqb.
  now rewrite bool_decide_eq_false.
Qed.

Lemma set_add_in who x l : In x (Page.set_add who l) <-> In x l \/ x = who.
Proof.
  unfold Page.set_add. destruct (existsb (eqb who) l) eqn:He.
  - apply existsb_exists in He as (y & Hy & Heq). apply eqb_eq in Heq. subst y.
    split; [now left|]. intros [H| ->]; assumption.
  - rewrite in_app_iff. cbn [In]. intuition congruence.
Qed.

Lemma set_add_nodup who l : List.NoDup l -> List.NoDup (Page.set_add who l).
Proof.
  intros Hnd. unfold Page.set_add. destruct (existsb (eqb who) l) eqn:He; [exact Hnd|].
  apply List.NoDup_app; [exact Hnd|repeat constructor; simpl; tauto|].
  intros x Hx [<-|[]].
  assert (existsb (eqb who) l = true); [|congruence].
  apply existsb_exists. exists who. split; [exact Hx|apply eqb_refl].
Qed.

Lemma set_delete_nodup who l : List.NoDup l -> List.NoDup (Page.set_delete who l).
Proof. intros Hnd. now apply List.NoDup_filter. Qed.

(** On the page of user [username], a ['typing'] then a ['stopTyping']
    about the same user, who was not shown as typing before, leave the
    page state exactly as it was. *)
Theorem typing_then_stop_restores_the_page username v who :
  ~ In who (Page.v_typingUsers v) ->
  Page.receive username (Page.receive username v (TypingEv who)) (StopTypingEv who) = v.
Proof.
  intros Hn. destruct v as [us ms tv]. cbn [Page.v_typingUsers] in Hn.
  cbn [Page.receive].
  destruct (negb (truthy who)); cbn [orb]; [reflexivity|].
  destruct (eqb who username);
    cbn [Page.v_users Page.v_messages Page.v_typingUsers]; f_equal.
  - now apply set_delete_absent.
  - unfold Page.set_add.
    destruct (existsb (eqb who) tv) eqn:He.
    + now apply set_delete_absent.
    + unfold Page.set_delete. rewrite List.filter_app. cbn [List.filter].
      rewrite eqb_refl. cbn [negb]. rewrite app_nil_r.
      now apply set_delete_absent.
Qed.

Lemma typing_then_stop_restores_the_page_witness :
  Page.receive bob (Page.receive bob (Page.mkView [ann; bob] [] []) (TypingEv ann))
               (StopTypingEv ann) =
  Page.mkView [ann; bob] [] [].
Proof.
  refine (typing_then_stop_restores_the_page bob (Page.mkView [ann; bob] [] []) ann _).
  intros [].
Defined.

(** Whatever events a page receives, its set of typing users keeps no
    duplicate, never holds the page's own username and never holds an
    empty name; and only ['typing'] and ['stopTyping'] events change it. *)
Theorem page_typing_set_is_clean username evs v :
  List.NoDup (Page.v_typingUsers v) ->
  ~ In username (Page.v_typingUsers v) ->
  ~ In [] (Page.v_typingUsers v) ->
  List.NoDup (Page.v_typingUsers (Page.receive_all username v evs)) /\
  ~ In username (Page.v_typingUsers (Page.receive_all username v evs)) /\
  ~ In [] (Page.v_typingUsers (Page.receive_all username v evs)) /\
  (List.Forall (fun ev => match ev with
                          | TypingEv _ | StopTypingEv _ => False
                          | _ => True
                          end) evs ->
   Page.v_typingUsers (Page.receive_all username v evs) = Page.v_typingUsers v).
Proof.
  unfold Page.receive_all. revert v.
  induction evs as [|ev evs IH]; intros v Hnd Hself Hnil.
  - cbn. auto.
  - cbn [List.fold_left].
    assert (Hstep : List.NoDup (Page.v_typingUsers (Page.receive username v ev)) /\
                    ~ In username (Page.v_typingUsers (Page.receive username v ev)) /\
                    ~ In [] (Page.v_typingUsers (Page.receive username v ev))).
    { destruct ev as [m|h|us|who|who]; cbn [Page.receive Page.v_typingUsers]; auto.
      - destruct (negb (truthy who)) eqn:Hw; cbn [orb]; auto.
        destruct (eqb who username) eqn:He; auto.
        cbn [Page.v_typingUsers]. split; [now apply set_add_nodup|].
        rewrite !set_add_in. apply eqb_neq in He.
        apply negb_false_iff, truthy_true in Hw.
        split; intros [H|H]; auto; congruence.
      - destruct (negb (truthy who)); auto.
        cbn [Page.v_typingUsers]. split; [now apply set_delete_nodup|].
        rewrite !set_delete_in. tauto. }
    destruct Hstep as (H1 & H2 & H3).
    destruct (IH (Page.receive username v ev) H1 H2 H3) as (I1 & I2 & I3 & I4).
    repeat split; try assumption.
    intros Hall. inversion Hall as [|? ? Hev Hrest]; subst.
    rewrite (I4 Hrest). destruct ev; cbn [Page.receive Page.v_typingUsers];
      try reflexivity; contradiction.
Qed.

Lemma page_typing_set_is_clean_witness :
  List.NoDup (Page.v_typingUsers
                (Page.receive_all bob (Page.mkView [] [] [])
                   [TypingEv ann; TypingEv bob; TypingEv ann])).
Proof.
  refine (proj1 (page_typing_set_is_clean bob [TypingEv ann; TypingEv bob; TypingEv ann]
                   (Page.mkView [] [] []) _ _ _)).
  - constructor.
  - intros [].
  - intros [].
Defined.

(** The typing line is rendered (its text is not empty) exactly when
    some user is in the set, and it starts with the name of the first
    one. *)
Theorem typingText_shown_iff_someone_types arr :
  (truthy (Page.typingText arr) = true <-> arr <> []) /\
  (forall a rest,
     exists tail, Page.typingText (a :: rest) = a ++ tail /\ tail <> []).
Proof.
  split.
  - destruct arr as [|a [|b [|c r]]]; cbn [Page.typingText].
    + split; [discriminate|intros H; now elim H].
    + split; [discriminate|intros _]. destruct a; reflexivity.
    + split; [discriminate|intros _]. destruct a; reflexivity.
    + split; [discriminate|intros _]. destruct a; reflexivity.
  - intros a rest. destruct rest as [|b [|c r]]; cbn [Page.typingText];
      eexists; (split; [reflexivity|discriminate]).
Qed.

(* ================================================================== *)
(** ** Mounting the page *)
(* ================================================================== *)

Ltac notice_clash H :=
  exfalso; vm_compute in H; discriminate H.

(** The page emits ['joinRoom'] on mount exactly when both query
    parameters are present and not empty, and then with these two values.
    The server never answers such a join with the "Username and room
    are required." notice. *)
Theorem page_join_passes_the_guard username room :
  (Page.mount username room = [JoinRoom username room] <->
   truthy_opt username = true /\ truthy_opt room = true) /\
  (Page.mount username room = [] <->
   truthy_opt username = false \/ truthy_opt room = false) /\
  (forall ev e socket w,
     In ev (Page.mount username room) ->
     ~ In (Emitted (ToSocket socket) (required_notice e))
          (out (handle e socket ev w))).
Proof.
  unfold Page.mount.
  destruct (truthy_opt username) eqn:Hu, (truthy_opt room) eqn:Hr; cbn [negb orb].
  2-4: (split; [split; [discriminate|intros [? ?]; discriminate]|];
        split; [split; auto|]; intros ev e socket w []).
  split; [split; auto|]. split; [split; [discriminate|intros [?|?]; discriminate]|].
  intros ev e socket w [<-|[]]. cbn [handle].
  destruct (joinRoom_result e socket username room w)
    as [Hg|? ? ? ? ? ?|u r ? ? Hc ?|u r ? ? Hc ? ?|u r ? ? Hc ? ?];
    cbn [out join_effects In]; intros Hin.
  - rewrite Hu, Hr in Hg. discriminate Hg.
  - destruct Hin as [Hin|[]]. notice_clash Hin.
  - repeat (destruct Hin as [Hin|Hin]; [try discriminate Hin|]);
      try contradiction; notice_clash Hin.
  - repeat (destruct Hin as [Hin|Hin]; [try discriminate Hin|]);
      try contradiction; notice_clash Hin.
  - repeat (destruct Hin as [Hin|Hin]; [try discriminate Hin|]);
      try contradiction; notice_clash Hin.
Qed.

Lemma page_join_passes_the_guard_witness :
  ~ In (Emitted (ToSocket conn2) (required_notice (calm 2)))
       (out (handle (calm 2) conn2 (JoinRoom (Some bob) (Some room_x)) ann_in_x)).
Proof.
  refine (proj2 (proj2 (page_join_passes_the_guard (Some bob) (Some room_x)))
            (JoinRoom (Some bob) (Some room_x)) (calm 2) conn2 ann_in_x _).
  left. reflexivity.
Defined.

(* ================================================================== *)
(** ** What the pages show after a join *)
(* ================================================================== *)



(* ================================================================== *)
(** ** From one page's composer to another page's typing line *)
(* ================================================================== *)









(* ================================================================== *)
(** ** Events of one connection and the other connections *)
(* ================================================================== *)

Lemma remove_first_split socket us u :
  List.find (has_socket socket) us = Some u ->
  exists a b, us = a ++ u :: b /\ remove_first socket us = a ++ b.
Proof.
  induction us as [|x r IH]; cbn [List.find remove_first]; [discriminate|].
  destruct (has_socket socket x).
  - intros [= ->]. exists [], r. split; reflexivity.
  - intros Hf. destruct (IH Hf) as (a & b & -> & Hrm).
    exists (x :: a), b. rewrite Hrm. split; reflexivity.
Qed.

(** An event of one connection never adds, removes or changes the
    session of another connection, and never changes which groups
    another socket is in. *)
Theorem other_connections_untouched e socket ev w :
  (forall x, u_socketId x <> socket ->
     (In x (users (final (handle e socket ev w))) <-> In x (users w))) /\
  (forall sid room, sid <> socket ->
     (sid ∈ members (final (handle e socket ev w)) room <-> sid ∈ members w room)).
Proof.
  destruct ev as [username room|text| | | |]; cbn [handle].
  - destruct (joinRoom_result e socket username room w)
      as [?|? ? ? ? ? ?|u r ? ? Hc ?|u r ? ? Hc ? ?|u r ? ? Hc ? ?];
      cbn [final]; try (split; reflexivity);
      (split;
       [ intros x Hx; cbn [joined_world users]; rewrite in_app_iff; cbn [In];
         split; [intros [Hin|[Hin|[]]]; [exact Hin|subst x; now elim Hx]|now left]
       | intros sid room' Hne;
         destruct (decide (room' = r)) as [->|Hroom];
         [ rewrite members_joined_world, elem_of_union, elem_of_singleton; tauto
         | now rewrite members_joined_other ] ]).
  - destruct (chat_message_keeps_registry e socket text w) as [Hu Hr].
    split; [intros x _; now rewrite Hu|].
    intros sid room _. unfold members. now rewrite Hr.
  - rewrite typing_run. split; reflexivity.
  - rewrite stopTyping_run. split; reflexivity.
  - change ((socket_leave_all socket;; disconnect e socket) w)
      with (handle e socket Disconnect w). split.
    + intros x Hx. rewrite handle_disconnect_run, disconnect_run. cbn [final].
      repeat break_if; cbn [final with_users with_rooms users socket_leave_all];
        try reflexivity;
        (split; [apply remove_first_subset|];
         intros Hin; apply remove_first_keeps; [exact Hin|];
         unfold has_socket; now apply eqb_neq).
    + intros sid room Hne. rewrite members_after_disconnect.
      rewrite elem_of_difference, elem_of_singleton. tauto.
  - split; [reflexivity|]. intros sid room Hne. rewrite members_connected.
    destruct (decide (room = socket)); [|reflexivity].
    rewrite elem_of_union, elem_of_singleton. tauto.
Qed.

(** In a state the server can reach, the roster sent after a disconnect
    is the former roster of the room with one entry removed, the
    username of the session deleted. *)
Theorem disconnect_roster_drops_the_leaver e socket w u names :
  reachable w ->
  List.find (has_socket socket) (users w) = Some u ->
  In (Emitted (ToRoom (u_room u)) (RoomUsersEv names))
     (out (handle e socket Disconnect w)) ->
  exists before after,
    occupants w (u_room u) = before ++ u_username u :: after /\
    names = before ++ after.
Proof.
  intros Hr Hf Hin.
  destruct (reachable_session_stored w socket u Hr Hf) as (_ & Hsr).
  rewrite handle_disconnect_run in Hin. cbn [out] in Hin.
  rewrite disconnect_run in Hin.
  cbn [socket_leave_all final with_rooms users] in Hin. rewrite Hf in Hin.
  destruct (fault_User_findOneAndDelete e); [destruct Hin|].
  cbn [out In] in Hin.
  destruct Hin as [Hin|[Hin|Hin]]; try discriminate Hin.
  destruct (fault_User_find e); [destruct Hin|].
  destruct Hin as [Hin|[]]. injection Hin as <-.
  destruct (remove_first_split socket (users w) u Hf) as (a & b & Hus & Hrm).
  unfold occupants. cbn [with_users users]. rewrite Hrm, Hus.
  rewrite !List.filter_app, !List.map_app. cbn [List.filter].
  unfold user_in_room at 2. rewrite Hsr, eqb_refl. cbn [List.map].
  eexists _, _. split; reflexivity.
Qed.

Lemma disconnect_roster_drops_the_leaver_witness :
  exists before after,
    occupants (final (handle_all ann_typing empty_world))
              (u_room (mkUser conn1 ann room_x 1)) =
      before ++ u_username (mkUser conn1 ann room_x 1) :: after /\
    [bob] = before ++ after.
Proof.
  refine (disconnect_roster_drops_the_leaver (calm 9) conn1
            (final (handle_all ann_typing empty_world))
            (mkUser conn1 ann room_x 1) [bob] (ex_intro _ ann_typing eq_refl) _ _).
  - vm_compute; reflexivity.
  - vm_compute. right. right. left. reflexivity.
Defined.
